(** * Validated bulk insert: a shallow embedding of [tradexa_assignment_2.py]

    The development follows the layout of the Python module:

    - [Py]: the fragment of the Python runtime the module relies on
      (values, [dict] access, [str.strip], [re.match], [float], f-strings);
    - [ValidationRules]: the three static validators;
    - [DatabaseManager]: [_insert_record] and [simulate_insertions], over an
      abstract SQLite backend and an explicit thread schedule.

    [str] values are modelled on the code points 0..255 (Rocq's [string]). *)

From Stdlib Require Import ZArith NArith List String Ascii Bool Lia Permutation.
From Stdlib Require Import SpecFloat.
Import ListNotations.

Local Open Scope string_scope.
Local Open Scope Z_scope.

(* ================================================================== *)
(** * The Python runtime fragment *)
(* ================================================================== *)

Module Py.

(** ** Exceptions and the result of a call *)

Inductive exc : Type :=
| AttributeError
| TypeError
| ValueError
| OverflowError
| KeyError
| Sqlite3Error (text : string).   (* [sqlite3.Error] and its subclasses *)

Inductive result (A : Type) : Type :=
| Ok (a : A)
| Raise (e : exc).

Arguments Ok {A} a.
Arguments Raise {A} e.

Definition bind {A B : Type} (m : result A) (k : A -> result B) : result B :=
  match m with
  | Ok a => k a
  | Raise e => Raise e
  end.

Notation "x <- m ;; k" := (bind m (fun x => k))
  (at level 61, m at next level, right associativity).

(** ** Values

    Records are [Dict[str, Any]]; the model covers the scalar values that
    the sample data uses and that SQLite can bind. [bool] is kept apart from
    [int] because [str()] prints it differently, but it is an [int] for
    [isinstance]. *)

Inductive pyval : Type :=
| PyNone
| PyBool (b : bool)
| PyInt (z : Z)
| PyFloat (f : spec_float)
| PyStr (s : string).

(** A dict in insertion order. *)
Definition record : Type := list (string * pyval).

Fixpoint lookup (d : record) (k : string) : option pyval :=
  match d with
  | [] => None
  | (k', v) :: d' => if String.eqb k' k then Some v else lookup d' k
  end.

(** [d.get(k)] *)
Definition dict_get (d : record) (k : string) : pyval :=
  match lookup d k with Some v => v | None => PyNone end.

(** [d.get(k, default)] *)
Definition dict_get_default (d : record) (k : string) (default : pyval) : pyval :=
  match lookup d k with Some v => v | None => default end.

(** [d[k]] *)
Definition dict_item (d : record) (k : string) : result pyval :=
  match lookup d k with Some v => Ok v | None => Raise KeyError end.

Definition keys (d : record) : list string := map fst d.
Definition values (d : record) : list pyval := map snd d.

(** [isinstance(v, int)]: [bool] is a subclass of [int]. *)
Definition isinstance_int (v : pyval) : bool :=
  match v with
  | PyInt _ | PyBool _ => true
  | _ => false
  end.

Definition float_zero : spec_float := S754_zero false.

(** [v <= 0] *)
Definition le_zero (v : pyval) : result bool :=
  match v with
  | PyInt z => Ok (z <=? 0)
  | PyBool b => Ok (negb b)
  | PyFloat f => Ok (SFleb f float_zero)
  | PyNone | PyStr _ => Raise TypeError
  end.

(** ** Characters and [str.strip] *)

Definition code (c : ascii) : N := N_of_ascii c.

Definition between (lo hi : N) (c : ascii) : bool :=
  (N.leb lo (code c) && N.leb (code c) hi)%bool.

(** [Py_UNICODE_ISSPACE] below U+0100: used by [str.strip()] and by [\s]. *)
Definition isspace (c : ascii) : bool :=
  (between 9 13 c || between 28 32 c || N.eqb (code c) 133 || N.eqb (code c) 160)%bool.

Definition is_lower (c : ascii) : bool := between 97 122 c.
Definition is_upper (c : ascii) : bool := between 65 90 c.
Definition is_letter (c : ascii) : bool := (is_lower c || is_upper c)%bool.
Definition is_digit (c : ascii) : bool := between 48 57 c.

Fixpoint lstrip (s : list ascii) : list ascii :=
  match s with
  | c :: s' => if isspace c then lstrip s' else s
  | [] => []
  end.

Definition rstrip (s : list ascii) : list ascii := rev (lstrip (rev s)).

Definition strip_chars (s : list ascii) : list ascii := rstrip (lstrip s).

Definition strip (s : string) : string :=
  string_of_list_ascii (strip_chars (list_ascii_of_string s)).

(** [v.strip()]: only [str] has the method among the modelled values. *)
Definition strip_method (v : pyval) : result string :=
  match v with
  | PyStr s => Ok (strip s)
  | _ => Raise AttributeError
  end.

(** Truth value of a [str]. *)
Definition str_truthy (s : string) : bool :=
  match s with EmptyString => false | _ => true end.

(** ** Regular expressions and [re.match] *)

Inductive regex : Type :=
| Void
| Eps
| Cls (p : ascii -> bool)
| Seq (r1 r2 : regex)
| Alt (r1 r2 : regex)
| Star (r : regex).

Definition Chr (c : ascii) : regex := Cls (Ascii.eqb c).
(** [r+] *)
Definition Plus (r : regex) : regex := Seq r (Star r).
(** [r{2,}] *)
Definition AtLeast2 (r : regex) : regex := Seq r (Seq r (Star r)).

Inductive Matches : regex -> list ascii -> Prop :=
| MEps : Matches Eps []
| MCls p c : p c = true -> Matches (Cls p) [c]
| MSeq r1 r2 s1 s2 :
    Matches r1 s1 -> Matches r2 s2 -> Matches (Seq r1 r2) (s1 ++ s2)
| MAltL r1 r2 s : Matches r1 s -> Matches (Alt r1 r2) s
| MAltR r1 r2 s : Matches r2 s -> Matches (Alt r1 r2) s
| MStarNil r : Matches (Star r) []
| MStarApp r s1 s2 :
    Matches r s1 -> Matches (Star r) s2 -> Matches (Star r) (s1 ++ s2).

Fixpoint nullable (r : regex) : bool :=
  match r with
  | Void => false
  | Eps => true
  | Cls _ => false
  | Seq r1 r2 => nullable r1 && nullable r2
  | Alt r1 r2 => nullable r1 || nullable r2
  | Star _ => true
  end.

Fixpoint deriv (c : ascii) (r : regex) : regex :=
  match r with
  | Void => Void
  | Eps => Void
  | Cls p => if p c then Eps else Void
  | Seq r1 r2 =>
      if nullable r1 then Alt (Seq (deriv c r1) r2) (deriv c r2)
      else Seq (deriv c r1) r2
  | Alt r1 r2 => Alt (deriv c r1) (deriv c r2)
  | Star r1 => Seq (deriv c r1) (Star r1)
  end.

(** The whole of [s] is in the language of [r]. *)
Fixpoint accepts (r : regex) (s : list ascii) : bool :=
  match s with
  | [] => nullable r
  | c :: s' => accepts (deriv c r) s'
  end.

Definition newline : ascii := ascii_of_N 10.

(** Drop one final newline, if there is one. *)
Definition chomp (s : list ascii) : option (list ascii) :=
  match rev s with
  | c :: t => if Ascii.eqb c newline then Some (rev t) else None
  | [] => None
  end.

(** [re.match('^' r '$', s)] is not [None]: without [re.MULTILINE], [$]
    matches at the end of the string and just before a final newline. *)
Definition re_match (r : regex) (s : string) : bool :=
  let cs := list_ascii_of_string s in
  (accepts r cs
   || match chomp cs with Some t => accepts r t | None => false end)%bool.

(** ** [float]

    Python floats are IEEE 754 binary64 values. *)

Definition prec : Z := 53.
Definition emax : Z := 1024.

(** Round an integer to the nearest float, ties to even. *)
Definition float_of_Z (z : Z) : spec_float := binary_normalize prec emax z 0 false.

Definition is_infinite (f : spec_float) : bool :=
  match f with S754_infinity _ => true | _ => false end.

(** [float(n)] for an [int]: an integer that rounds beyond the largest
    finite float raises [OverflowError]. *)
Definition float_of_int (z : Z) : result spec_float :=
  let f := float_of_Z z in
  if is_infinite f then Raise OverflowError else Ok f.

(** [m * 10^e10], correctly rounded; [m >= 0]. For a negative exponent the
    quotient is computed to 56 bits or more and a sticky bit records a
    non-zero remainder. Overflow gives an infinity, underflow a zero. *)
Definition float_of_decimal (neg : bool) (m e10 : Z) : spec_float :=
  if m =? 0 then S754_zero neg
  else if 0 <=? e10 then
    binary_normalize prec emax (cond_Zopp neg (m * 10 ^ e10)) 0 false
  else
    let d := 10 ^ (- e10) in
    let s := Z.max 0 (Z.log2 d - Z.log2 m + 56) in
    let q := (m * 2 ^ s) / d in
    let sticky := if (m * 2 ^ s) mod d =? 0 then 0 else 1 in
    binary_normalize prec emax (cond_Zopp neg (2 * q + sticky)) (- s - 1) false.

(** Non-ASCII whitespace becomes a space, any other non-ASCII character a
    question mark (there is no decimal digit in U+0080..U+00FF). *)
Definition to_ascii_space (c : ascii) : ascii :=
  if N.ltb (code c) 127 then c
  else if isspace c then " "%char else "?"%char.

(** Underscores are allowed between two digits only, and are dropped. *)
Fixpoint drop_underscores (prev : ascii) (s : list ascii) : option (list ascii) :=
  match s with
  | [] => if Ascii.eqb prev "_" then None else Some []
  | c :: s' =>
      if Ascii.eqb c "_" then
        if is_digit prev then drop_underscores c s' else None
      else if (Ascii.eqb prev "_" && negb (is_digit c))%bool then None
      else option_map (cons c) (drop_underscores c s')
  end.

(** [Py_ISSPACE]: the C-locale white space. *)
Definition c_isspace (c : ascii) : bool :=
  (between 9 13 c || N.eqb (code c) 32)%bool.

Fixpoint c_lstrip (s : list ascii) : list ascii :=
  match s with
  | c :: s' => if c_isspace c then c_lstrip s' else s
  | [] => []
  end.

Definition c_strip (s : list ascii) : list ascii :=
  rev (c_lstrip (rev (c_lstrip s))).

Definition to_lower (c : ascii) : ascii :=
  if is_upper c then ascii_of_N (code c + 32) else c.

Definition parse_sign (s : list ascii) : bool * list ascii :=
  match s with
  | c :: t =>
      if Ascii.eqb c "-" then (true, t)
      else if Ascii.eqb c "+" then (false, t)
      else (false, s)
  | [] => (false, s)
  end.

Fixpoint span_digits (s : list ascii) : list ascii * list ascii :=
  match s with
  | c :: t =>
      if is_digit c then let '(ds, r) := span_digits t in (c :: ds, r)
      else ([], s)
  | [] => ([], [])
  end.

Definition digits_value (ds : list ascii) : Z :=
  fold_left (fun acc c => 10 * acc + (Z.of_N (code c) - 48)) ds 0.

(** [digits [. digits] [(e|E) [sign] digits]] with a digit in the mantissa:
    the integer mantissa and the decimal exponent. *)
Definition parse_decimal (s : list ascii) : option (Z * Z) :=
  let '(ip, r1) := span_digits s in
  let '(fp, r2) :=
    match r1 with
    | c :: t => if Ascii.eqb c "." then span_digits t else ([], r1)
    | [] => ([], r1)
    end in
  let m := digits_value (ip ++ fp)%list in
  let scale := Z.of_nat (List.length fp) in
  match (ip ++ fp)%list with
  | [] => None
  | _ :: _ =>
      match r2 with
      | [] => Some (m, - scale)
      | c :: t =>
          if Ascii.eqb (to_lower c) "e" then
            let '(eneg, t') := parse_sign t in
            match span_digits t' with
            | (d :: ds, []) => Some (m, cond_Zopp eneg (digits_value (d :: ds)) - scale)
            | _ => None
            end
          else None
      end
  end.

(** [sign? (inf | infinity | nan | decimal)], the whole of [s]. *)
Definition parse_float (s : list ascii) : option spec_float :=
  let '(neg, body) := parse_sign s in
  let word := string_of_list_ascii (map to_lower body) in
  if (String.eqb word "inf" || String.eqb word "infinity")%bool then
    Some (S754_infinity neg)
  else if String.eqb word "nan" then Some S754_nan
  else
    match parse_decimal body with
    | Some (m, e10) => Some (float_of_decimal neg m e10)
    | None => None
    end.

(** [float(s)] for a [str]. *)
Definition float_of_str (s : string) : result spec_float :=
  let cs := map to_ascii_space (list_ascii_of_string s) in
  match drop_underscores zero cs with
  | None => Raise ValueError
  | Some cs' =>
      match parse_float (c_strip cs') with
      | Some f => Ok f
      | None => Raise ValueError
      end
  end.

(** [float(v)] *)
Definition float (v : pyval) : result spec_float :=
  match v with
  | PyNone => Raise TypeError
  | PyBool b => Ok (float_of_Z (if b then 1 else 0))
  | PyInt z => float_of_int z
  | PyFloat f => Ok f
  | PyStr s => float_of_str s
  end.

(** [f < 0] *)
Definition lt_zero (f : spec_float) : bool := SFltb f float_zero.

(** ** f-strings

    An f-string is kept as its evaluated segments: literal text and the
    values interpolated into it, so that a message shows which value it
    names. *)

Inductive segment : Type :=
| Lit (s : string)
| Fmt (v : pyval).

Definition message : Type := list segment.

(** [str(v)] is empty only for the empty string. *)
Definition segment_truthy (p : segment) : bool :=
  match p with
  | Lit s => str_truthy s
  | Fmt (PyStr s) => str_truthy s
  | Fmt _ => true
  end.

(** Truth value of the rendered f-string: it is non-empty. *)
Definition message_truthy (m : message) : bool := existsb segment_truthy m.

End Py.

Import Py.

(* ================================================================== *)
(** * [class ValidationRules] *)
(* ================================================================== *)

Module ValidationRules.

(** A validator returns [None], an error message, or raises. *)
Definition verdict : Type := result (option message).

(** One [if ...: return f"..."] block after another: the first block that
    returns a message or raises ends the function. *)
Definition and_then (c : verdict) (rest : verdict) : verdict :=
  match c with
  | Ok None => rest
  | _ => c
  end.

Notation "c >>> rest" := (and_then c rest) (at level 62, right associativity).

(** [not isinstance(v, int) or item <= 0], where [item] is evaluated only
    when the first disjunct is false. *)
Definition not_positive_int (v : pyval) (item : result pyval) : result bool :=
  if negb (isinstance_int v) then Ok true
  else x <- item ;; le_zero x.

(** *** The patterns *)

(** [[A-Za-z\s]] *)
Definition name_class (c : ascii) : bool :=
  (is_upper c || is_lower c || isspace c)%bool.

(** [r'^[A-Za-z\s]+$'] *)
Definition name_regex : regex := Plus (Cls name_class).

(** [[a-zA-Z0-9. %+-]] *)
Definition email_local_class (c : ascii) : bool :=
  (is_lower c || is_upper c || is_digit c
   || Ascii.eqb c "." || Ascii.eqb c " " || Ascii.eqb c "%"
   || Ascii.eqb c "+" || Ascii.eqb c "-")%bool.

(** [[a-zA-Z-0-9.-]] *)
Definition email_domain_class (c : ascii) : bool :=
  (is_lower c || is_upper c || Ascii.eqb c "-" || is_digit c
   || Ascii.eqb c "." || Ascii.eqb c "-")%bool.

(** [[a-zA-Z]] *)
Definition email_tld_class (c : ascii) : bool := (is_lower c || is_upper c)%bool.

(** [r'^[a-zA-Z0-9. %+-]+@[a-zA-Z-0-9.-]+\.[a-zA-Z]{2,}$'] *)
Definition email_regex : regex :=
  Seq (Plus (Cls email_local_class))
   (Seq (Chr "@")
    (Seq (Plus (Cls email_domain_class))
     (Seq (Chr ".") (AtLeast2 (Cls email_tld_class))))).

(** [[A-Za-z0-9\s]] *)
Definition product_name_class (c : ascii) : bool :=
  (is_upper c || is_lower c || is_digit c || isspace c)%bool.

(** [r'^[A-Za-z0-9\s]+$'] *)
Definition product_name_regex : regex := Plus (Cls product_name_class).

(** *** [validate_user] *)

Definition user_id_check (user : record) : verdict :=
  bad <- not_positive_int (dict_get user "id") (dict_item user "id") ;;
  if bad then
    Ok (Some [Lit "Invalid user ID: "; Fmt (dict_get user "id");
              Lit ". Must be a positive integer."])
  else Ok None.

Definition user_name_check (user : record) : verdict :=
  name <- strip_method (dict_get_default user "name" (PyStr "")) ;;
  if (negb (str_truthy name) || negb (re_match name_regex name))%bool then
    Ok (Some [Lit "Invalid name: "; Fmt (PyStr name);
              Lit ". Must contain only letters and spaces."])
  else Ok None.

Definition user_email_check (user : record) : verdict :=
  email <- strip_method (dict_get_default user "email" (PyStr "")) ;;
  if (negb (str_truthy email) || negb (re_match email_regex email))%bool then
    Ok (Some [Lit "Invalid email: "; Fmt (PyStr email);
              Lit ". Must be a valid email address."])
  else Ok None.

Definition validate_user (user : record) : verdict :=
  user_id_check user >>> user_name_check user >>> user_email_check user.

(** *** [validate_product] *)

Definition product_id_check (product : record) : verdict :=
  bad <- not_positive_int (dict_get product "id") (dict_item product "id") ;;
  if bad then
    Ok (Some [Lit "Invalid product ID: "; Fmt (dict_get product "id");
              Lit ". Must be a positive integer"])
  else Ok None.

Definition product_name_check (product : record) : verdict :=
  name <- strip_method (dict_get_default product "name" (PyStr "")) ;;
  if (negb (str_truthy name) || negb (re_match product_name_regex name))%bool then
    Ok (Some [Lit "Invalid product name: "; Fmt (PyStr name);
              Lit ". Must contain only letters and sapaces."])
  else Ok None.

(** The [try] block: [except (TypeError, ValueError)] handles these two
    exceptions of [float(price)] and lets any other one through. *)
Definition product_price_check (product : record) : verdict :=
  let price := dict_get product "price" in
  match float price with
  | Ok price_float =>
      if lt_zero price_float then
        Ok (Some [Lit "Invalid price: "; Fmt price;
                  Lit ". Price must be non-negative."])
      else Ok None
  | Raise TypeError | Raise ValueError =>
      Ok (Some [Lit "Invalid price: "; Fmt price; Lit ". Must be a number."])
  | Raise e => Raise e
  end.

Definition validate_product (product : record) : verdict :=
  product_id_check product >>> product_name_check product
  >>> product_price_check product.

(** *** [validate_order] *)

Definition order_id_check (order : record) : verdict :=
  bad <- not_positive_int (dict_get order "id") (dict_item order "id") ;;
  if bad then
    Ok (Some [Lit "Invalid order ID: "; Fmt (dict_get order "id");
              Lit ". Must be a positive integer"])
  else Ok None.

Definition order_user_id_check (order : record) : verdict :=
  let user_id := dict_get order "user_id" in
  bad <- not_positive_int user_id (Ok user_id) ;;
  if bad then
    Ok (Some [Lit "Invalid user ID: "; Fmt user_id;
              Lit ". Must be a positive integer"])
  else Ok None.

(** As in the source, [product_id] is bound to [order.get('user_id')]. *)
Definition order_product_id_check (order : record) : verdict :=
  let product_id := dict_get order "user_id" in
  bad <- not_positive_int product_id (Ok product_id) ;;
  if bad then
    Ok (Some [Lit "Invalid product ID: "; Fmt product_id;
              Lit ". Must be a positive integer"])
  else Ok None.

Definition order_quantity_check (order : record) : verdict :=
  let quantity := dict_get order "quantity" in
  if negb (isinstance_int quantity) then
    Ok (Some [Lit "Invalid quanitty: "; Fmt quantity;
              Lit ". Must be an integer."])
  else Ok None.

Definition validate_order (order : record) : verdict :=
  order_id_check order >>> order_user_id_check order
  >>> order_product_id_check order >>> order_quantity_check order.

End ValidationRules.

(* ================================================================== *)
(** * [class DatabaseConfig] *)
(* ================================================================== *)

Module DatabaseConfig.

Definition users_db : string := "users.db".
Definition products_db : string := "products.db".
Definition orders_db : string := "orders.db".

End DatabaseConfig.

(* ================================================================== *)
(** * The SQLite side *)
(* ================================================================== *)

(** [sqlite3] is outside the module: the development is parametric in it.
    [execute] stands for the body of the [with cls._lock, sqlite3.connect]
    block (connect, [cursor.execute(query, params)], commit), which runs
    atomically because every writer holds the one class-wide lock; it
    returns [cursor.lastrowid] or raises. [create_table] stands for one
    [CREATE TABLE IF NOT EXISTS] block. *)
Record backend : Type := {
  db : Type;
  create_table : string -> string -> db -> result unit * db;
  execute : string -> string -> list pyval -> db -> result Z * db
}.

(** A reference backend to run the model on: each database is the list of
    the rows committed to it, row ids count from 1, and it accepts the
    full-row [INSERT] of each table only. An integer outside the 64-bit
    range cannot be bound ([OverflowError]); any other statement is an
    [sqlite3.OperationalError]. *)
Module MemDb.

Definition row : Type := list pyval.
Definition state : Type := list (string * row).

Definition rows_of (path : string) (d : state) : list row :=
  map snd (filter (fun e => String.eqb (fst e) path) d).

Definition statement_of (path : string) : string :=
  if String.eqb path DatabaseConfig.users_db then
    "INSERT INTO users (id, name, email) VALUES (?, ?, ?)"
  else if String.eqb path DatabaseConfig.products_db then
    "INSERT INTO products (id, name, price) VALUES (?, ?, ?)"
  else if String.eqb path DatabaseConfig.orders_db then
    "INSERT INTO orders (id, user_id, product_id, quantity) VALUES (?, ?, ?, ?)"
  else "".

Definition int64 (v : pyval) : bool :=
  match v with
  | PyInt z => (- 2 ^ 63 <=? z) && (z <? 2 ^ 63)
  | _ => true
  end.

Definition execute (path query : string) (params : list pyval) (d : state)
  : result Z * state :=
  if negb (forallb int64 params) then (Raise OverflowError, d)
  else if String.eqb query (statement_of path) then
    (Ok (Z.of_nat (S (List.length (rows_of path d)))), (d ++ [(path, params)])%list)
  else (Raise (Sqlite3Error "unsupported statement"), d).

Definition create_table (path ddl : string) (d : state) : result unit * state :=
  (Ok tt, d).

Definition sqlite : backend := Build_backend state create_table execute.

End MemDb.

(* ================================================================== *)
(** * [class DatabaseManager] *)
(* ================================================================== *)

Module DatabaseManager.

Inductive status : Type :=
| success
| validation_error
| insertion_error.

(** The third entry of a result dict: ['rowid'] or ['error']. *)
Inductive detail : Type :=
| rowid (n : Z)
| error (m : message).

(** The dict [_insert_record] returns. *)
Record outcome : Type := {
  out_record : record;
  out_status : status;
  out_detail : detail
}.

(** [if validation_error:] on an [Optional[str]]. *)
Definition truthy (v : option message) : bool :=
  match v with
  | Some m => message_truthy m
  | None => false
  end.

(** The three destinations of [simulate_insertions]. *)
Inductive kind : Type :=
| users
| products
| orders.

Definition db_path_of (k : kind) : string :=
  match k with
  | users => DatabaseConfig.users_db
  | products => DatabaseConfig.products_db
  | orders => DatabaseConfig.orders_db
  end.

Definition table_of (k : kind) : string :=
  match k with
  | users => "users"
  | products => "products"
  | orders => "orders"
  end.

Definition validation_of (k : kind) : record -> ValidationRules.verdict :=
  match k with
  | users => ValidationRules.validate_user
  | products => ValidationRules.validate_product
  | orders => ValidationRules.validate_order
  end.

(** The thread schedule of one batch: [exec_order] is the order in which
    the submitted tasks take their turn (tasks meet only at the lock, so a
    run of the pool is a sequential run in some order); [done_order] is the
    order in which [as_completed] yields the futures. Tasks are named by
    their position in the batch. *)
Record schedule : Type := {
  exec_order : list nat;
  done_order : list nat
}.

(** Every task runs once and every future is yielded once. *)
Definition fair (n : nat) (s : schedule) : Prop :=
  Permutation (exec_order s) (seq 0 n) /\ Permutation (done_order s) (seq 0 n).

Definition in_order (n : nat) : schedule :=
  {| exec_order := seq 0 n; done_order := seq 0 n |}.

(** The [query] of [_insert_record]: one column and one placeholder for
    each key of the record. *)
Definition insert_query (table : string) (record : record) : string :=
  let placeholders := String.concat ", " (map (fun _ => "?") record) in
  let columns := String.concat ", " (keys record) in
  "INSERT INTO " ++ table ++ " (" ++ columns ++ ") VALUES (" ++ placeholders ++ ")".

Section WithBackend.

Variable B : backend.

(** [_create_tables] *)
Definition _create_tables (d : db B) : result unit * db B :=
  match create_table B DatabaseConfig.users_db
          "CREATE TABLE IF NOT EXISTS users (id INTEGER, name TEXT, email TEXT)" d with
  | (Raise e, d1) => (Raise e, d1)
  | (Ok _, d1) =>
  match create_table B DatabaseConfig.products_db
          "CREATE TABLE IF NOT EXISTS products (id INTEGER, name TEXT, price REAL)" d1 with
  | (Raise e, d2) => (Raise e, d2)
  | (Ok _, d2) =>
      create_table B DatabaseConfig.orders_db
        "CREATE TABLE IF NOT EXISTS orders (id INTEGER, user_id INTEGER, product_id INTEGER, quantity INTEGER)" d2
  end
  end.

(** [_insert_record] *)
Definition _insert_record (db_path table : string) (record : record)
    (validation_func : Py.record -> ValidationRules.verdict) (d : db B)
  : result outcome * db B :=
  match validation_func record with
  | Raise e => (Raise e, d)
  | Ok validation_error_ =>
      if truthy validation_error_ then
        (Ok {| out_record := record;
               out_status := validation_error;
               out_detail := error (match validation_error_ with
                                    | Some m => m
                                    | None => []
                                    end) |}, d)
      else
        let query := insert_query table record in
        match execute B db_path query (values record) d with
        | (Ok lastrowid, d') =>
            (Ok {| out_record := record;
                   out_status := success;
                   out_detail := rowid lastrowid |}, d')
        | (Raise (Sqlite3Error text), d') =>
            (Ok {| out_record := record;
                   out_status := insertion_error;
                   out_detail := error [Lit text] |}, d')
        | (Raise e, d') => (Raise e, d')
        end
  end.

(** The pool runs the tasks of a batch in the order [order]; a future keeps
    what its task returned or raised. *)
Fixpoint run_workers (task : record -> db B -> result outcome * db B)
    (records : list record) (order : list nat) (d : db B)
  : list (nat * result outcome) * db B :=
  match order with
  | [] => ([], d)
  | i :: rest =>
      match nth_error records i with
      | Some r =>
          let '(res, d1) := task r d in
          let '(futures, d2) := run_workers task records rest d1 in
          ((i, res) :: futures, d2)
      | None => run_workers task records rest d
      end
  end.

Fixpoint future_of (futures : list (nat * result outcome)) (i : nat)
  : option (result outcome) :=
  match futures with
  | [] => None
  | (j, res) :: rest => if Nat.eqb j i then Some res else future_of rest i
  end.

(** [[future.result() for future in as_completed(futures)]]: [result()]
    returns the task's dict or re-raises what the task raised, which ends
    the comprehension. *)
Fixpoint collect (futures : list (nat * result outcome)) (done : list nat)
  : result (list outcome) :=
  match done with
  | [] => Ok []
  | i :: rest =>
      match future_of futures i with
      | Some (Ok o) => os <- collect futures rest ;; Ok (o :: os)
      | Some (Raise e) => Raise e
      | None => collect futures rest
      end
  end.

(** [[executor.submit(cls._insert_record, db, table, record, validate) for
    record in data]], run by the pool: the futures and the store once every
    task has run. *)
Definition submit_all (k : kind) (s : schedule) (data : list record) (d : db B)
  : list (nat * result outcome) * db B :=
  run_workers
    (fun r => _insert_record (db_path_of k) (table_of k) r (validation_of k))
    data (exec_order s) d.

(** One batch: the [submit] comprehension followed by its [as_completed]
    comprehension. The store is the one after every task has run, also
    when the comprehension raises: leaving the [with ThreadPoolExecutor]
    block waits for the pool. *)
Definition run_batch (k : kind) (s : schedule) (data : list record) (d : db B)
  : result (list outcome) * db B :=
  let '(futures, d') := submit_all k s data d in
  (collect futures (done_order s), d').

(** The [results] dict. *)
Record results : Type := {
  res_users : list outcome;
  res_products : list outcome;
  res_orders : list outcome
}.

(** The body of [simulate_insertions] for given batches. *)
Definition insertions (su sp so : schedule)
    (users_data products_data orders_data : list record) (d : db B)
  : result results * db B :=
  match _create_tables d with
  | (Raise e, d0) => (Raise e, d0)
  | (Ok _, d0) =>
  match run_batch users su users_data d0 with
  | (Raise e, d1) => (Raise e, d1)
  | (Ok ru, d1) =>
  match run_batch products sp products_data d1 with
  | (Raise e, d2) => (Raise e, d2)
  | (Ok rp, d2) =>
  match run_batch orders so orders_data d2 with
  | (Raise e, d3) => (Raise e, d3)
  | (Ok ro, d3) =>
      (Ok {| res_users := ru; res_products := rp; res_orders := ro |}, d3)
  end
  end
  end
  end.

End WithBackend.

(** *** The sample data *)

Definition user (id : Z) (name email : string) : record :=
  [("id", PyInt id); ("name", PyStr name); ("email", PyStr email)].

(** [price] is a float literal with an integral value. *)
Definition product (id : Z) (name : string) (price : Z) : record :=
  [("id", PyInt id); ("name", PyStr name); ("price", PyFloat (float_of_Z price))].

Definition order (id user_id product_id quantity : Z) : record :=
  [("id", PyInt id); ("user_id", PyInt user_id);
   ("product_id", PyInt product_id); ("quantity", PyInt quantity)].

Definition users_data : list record :=
  [ user 1 "Alice" "alice@example.com";
    user 2 "Bob" "bob@example.com";
    user 3 "Charlie" "charlie@example.com";
    user 4 "David" "david@example.com";
    user 5 "Eve" "eve@example.com";
    user 6 "Frank" "frank@example.com";
    user 7 "Grace" "grace@example.com";
    user 8 "Alice" "alice@example.com";
    user 9 "Henry" "henry@example.com";
    user 10 "" "jane@example.com" ].

Definition products_data : list record :=
  [ product 1 "Laptop" 1000;
    product 2 "Smartphone" 700;
    product 3 "Headphones" 150;
    product 4 "Monitor" 300;
    product 5 "Keyboard" 50;
    product 6 "Mouse" 30;
    product 7 "Laptop" 1000;
    product 8 "Smartwatch" 250;
    product 9 "Gaming Chair" 500;
    product 10 "Earbuds" (-50) ].

Definition orders_data : list record :=
  [ order 1 1 1 2;
    order 2 2 2 1;
    order 3 3 3 5;
    order 4 4 4 1;
    order 5 5 5 3;
    order 6 6 6 4;
    order 7 7 7 2;
    order 8 8 8 0;
    order 9 9 1 (-1);
    order 10 10 11 2 ].

(** [simulate_insertions] *)
Definition simulate_insertions (B : backend) (su sp so : schedule) (d : db B)
  : result results * db B :=
  insertions B su sp so users_data products_data orders_data d.

End DatabaseManager.

(* ================================================================== *)
(** * [main] *)
(* ================================================================== *)

Module Main.

Import DatabaseManager.







End Main.

(* ================================================================== *)
(** * The specification's vocabulary *)
(* ================================================================== *)

Module Spec.

(** A field holds a positive integer; [True] is the integer 1. *)
Definition positive_int (field : option pyval) : Prop :=
  match field with
  | Some (PyInt z) => 0 < z
  | Some (PyBool b) => b = true
  | _ => False
  end.

(** A field is missing, is not an integer, or is zero or negative; [False]
    is the integer 0. *)
Definition invalid_id (field : option pyval) : Prop :=
  match field with
  | None => True
  | Some (PyInt z) => z <= 0
  | Some (PyBool b) => b = false
  | Some _ => True
  end.

(** A field holds an integer. *)
Definition integer (field : option pyval) : Prop :=
  match field with
  | Some (PyInt _) | Some (PyBool _) => True
  | _ => False
  end.

(** Following the specification's words: "one or more runs of letters
    separated by single spaces". *)
Definition single_spaced_name : regex :=
  Seq (Plus (Cls is_letter)) (Star (Seq (Chr " ") (Plus (Cls is_letter)))).

Definition single_spaced (s : string) : bool :=
  accepts single_spaced_name (list_ascii_of_string s).

(** Following the specification's words: the local part "allows
    letters/digits/dot/percent/plus/hyphen". *)
Definition spec_local_class (c : ascii) : bool :=
  (is_letter c || is_digit c || Ascii.eqb c "." || Ascii.eqb c "%"
   || Ascii.eqb c "+" || Ascii.eqb c "-")%bool.

(** "domain allows letters/digits/hyphen/dot" *)
Definition spec_domain_class (c : ascii) : bool :=
  (is_letter c || is_digit c || Ascii.eqb c "-" || Ascii.eqb c ".")%bool.

(** "local-part@domain.tld ... the final label is 2+ letters" *)
Definition spec_email : regex :=
  Seq (Plus (Cls spec_local_class))
   (Seq (Chr "@")
    (Seq (Plus (Cls spec_domain_class))
     (Seq (Chr ".") (AtLeast2 (Cls is_letter))))).

Definition spec_email_shape (s : string) : bool :=
  accepts spec_email (list_ascii_of_string s).

(** [r'] has the shape of [r] with larger character classes. *)
Inductive widens : regex -> regex -> Prop :=
| WVoid : widens Void Void
| WEps : widens Eps Eps
| WCls p q : (forall c, p c = true -> q c = true) -> widens (Cls p) (Cls q)
| WSeq r1 r2 r1' r2' :
    widens r1 r1' -> widens r2 r2' -> widens (Seq r1 r2) (Seq r1' r2')
| WAlt r1 r2 r1' r2' :
    widens r1 r1' -> widens r2 r2' -> widens (Alt r1 r2) (Alt r1' r2')
| WStar r r' : widens r r' -> widens (Star r) (Star r').

(** [d[k] = v] on a dict: the key keeps its place, a new key goes last. *)
Fixpoint dict_set (d : record) (k : string) (v : pyval) : record :=
  match d with
  | [] => [(k, v)]
  | (k', v') :: d' =>
      if String.eqb k' k then (k', v) :: d' else (k', v') :: dict_set d' k v
  end.

(** [del d[k]], when the key is there. *)
Fixpoint dict_del (d : record) (k : string) : record :=
  match d with
  | [] => []
  | (k', v') :: d' =>
      if String.eqb k' k then dict_del d' k else (k', v') :: dict_del d' k
  end.

(** In the run of a batch, the worker of task [i] raised [e]: the future
    of the task holds the exception. *)
Definition worker_raised (B : backend) (k : DatabaseManager.kind)
    (s : DatabaseManager.schedule) (data : list record) (d : db B)
    (i : nat) (e : exc) : Prop :=
  DatabaseManager.future_of (fst (DatabaseManager.submit_all B k s data d)) i
  = Some (Raise e).

(** No white space at either end. *)
Definition trimmed (cs : list ascii) : Prop :=
  lstrip cs = cs /\ lstrip (rev cs) = rev cs.

(** The shape the email pattern of the source describes:
    [local @ domain . tld]. *)
Definition email_shape (cs : list ascii) : Prop :=
  exists local domain tld,
    cs = (local ++ "@"%char :: domain ++ "."%char :: tld)%list
    /\ local <> [] /\ forallb ValidationRules.email_local_class local = true
    /\ domain <> [] /\ forallb ValidationRules.email_domain_class domain = true
    /\ (2 <= List.length tld)%nat
    /\ forallb ValidationRules.email_tld_class tld = true.

(** A trimmed product name the source accepts: not empty, letters, digits
    and white space only. *)
Definition product_name_ok (name : string) : Prop :=
  name <> ""
  /\ Forall (fun c => is_letter c = true \/ is_digit c = true \/ isspace c = true)
            (list_ascii_of_string name).

(** A trimmed user name the source accepts. *)
Definition user_name_ok (name : string) : Prop :=
  name <> ""
  /\ Forall (fun c => is_letter c = true \/ isspace c = true)
            (list_ascii_of_string name).

Import DatabaseManager.

(** What a returned dict says about the validator and the storage block:
    [d] is the store the task found and [d'] the one it left. *)
Definition explains (B : backend) (k : kind) (r : record) (d d' : db B)
    (o : outcome) : Prop :=
  match out_status o with
  | validation_error =>
      exists m, validation_of k r = Ok (Some m)
                /\ out_detail o = error m /\ d' = d
  | success =>
      validation_of k r = Ok None
      /\ exists n,
           execute B (db_path_of k) (insert_query (table_of k) r) (values r) d
           = (Ok n, d')
           /\ out_detail o = rowid n
  | insertion_error =>
      validation_of k r = Ok None
      /\ exists text,
           execute B (db_path_of k) (insert_query (table_of k) r) (values r) d
           = (Raise (Sqlite3Error text), d')
           /\ out_detail o = error [Lit text]
  end.

(** A verdict whose message, if any, is a non-empty string. *)
Definition truthy_verdict (v : ValidationRules.verdict) : Prop :=
  forall m, v = Ok (Some m) -> message_truthy m = true.

End Spec.

(* ================================================================== *)
(** * Facts about the runtime fragment *)
(* ================================================================== *)

Module PyFacts.

Lemma nullable_Matches (r : regex) : nullable r = true <-> Matches r [].
Proof.
  split.
  - induction r; simpl; intros H; try discriminate.
    + constructor.
    + apply andb_prop in H as [H1 H2].
      change (@nil ascii) with (@nil ascii ++ [])%list. constructor; auto.
    + apply orb_prop in H as [H | H]; [apply MAltL | apply MAltR]; auto.
    + constructor.
  - intros H. remember (@nil ascii) as s eqn:Es.
    induction H; simpl; subst; auto; try discriminate.
    + apply app_eq_nil in Es as [-> ->]. rewrite IHMatches1, IHMatches2; auto.
    + rewrite IHMatches; auto.
    + rewrite IHMatches; auto using orb_true_r.
Qed.

Lemma deriv_sound (c : ascii) (r : regex) :
  forall s, Matches (deriv c r) s -> Matches r (c :: s).
Proof.
  induction r; simpl; intros s H.
  - inversion H.
  - inversion H.
  - destruct (p c) eqn:E; inversion H; subst. constructor; assumption.
  - destruct (nullable r1) eqn:E.
    + inversion H; subst.
      * match goal with M : Matches (Seq _ _) _ |- _ => inversion M; subst end.
        change (c :: (s1 ++ s2)%list) with ((c :: s1) ++ s2)%list.
        constructor; auto.
      * change (c :: s) with ([] ++ c :: s)%list.
        constructor; auto. apply nullable_Matches; assumption.
    + inversion H; subst.
      change (c :: (s1 ++ s2)%list) with ((c :: s1) ++ s2)%list.
      constructor; auto.
  - inversion H; subst; [apply MAltL | apply MAltR]; auto.
  - inversion H; subst.
    change (c :: (s1 ++ s2)%list) with ((c :: s1) ++ s2)%list.
    constructor; auto.
Qed.

Lemma deriv_complete (r : regex) (s' : list ascii) :
  Matches r s' -> forall c s, s' = c :: s -> Matches (deriv c r) s.
Proof.
  induction 1; intros c0 s0 E; simpl; try discriminate.
  - injection E as -> <-. rewrite H. constructor.
  - destruct s1 as [| a s1']; simpl in E.
    + subst s2. assert (N : nullable r1 = true) by (apply nullable_Matches; auto).
      rewrite N. apply MAltR. eapply IHMatches2; reflexivity.
    + injection E as -> <-.
      destruct (nullable r1).
      * apply MAltL. constructor; auto.
      * constructor; auto.
  - apply MAltL; eauto.
  - apply MAltR; eauto.
  - destruct s1 as [| a s1']; simpl in E.
    + eapply IHMatches2 in E. exact E.
    + injection E as -> <-. constructor; auto.
Qed.

Lemma deriv_Matches (c : ascii) (r : regex) (s : list ascii) :
  Matches (deriv c r) s <-> Matches r (c :: s).
Proof.
  split; [apply deriv_sound | intros H; eapply deriv_complete; eauto].
Qed.

(** The matcher decides membership in the language of the pattern. *)
Lemma accepts_Matches (s : list ascii) :
  forall r, accepts r s = true <-> Matches r s.
Proof.
  induction s as [| c s IH]; intros r; simpl.
  - apply nullable_Matches.
  - rewrite IH. apply deriv_Matches.
Qed.

Lemma Matches_Star_Cls (p : ascii -> bool) (s : list ascii) :
  Matches (Star (Cls p)) s <-> forallb p s = true.
Proof.
  split.
  - intros H. remember (Star (Cls p)) as r eqn:Er.
    induction H; inversion Er; subst; auto.
    inversion H; subst. simpl.
    match goal with E : p _ = true |- _ => rewrite E end. auto.
  - induction s as [| c s IH]; simpl; intros H.
    + constructor.
    + apply andb_prop in H as [H1 H2].
      change (c :: s) with ([c] ++ s)%list.
      constructor; [constructor |]; auto.
Qed.

Lemma Matches_Plus_Cls (p : ascii -> bool) (s : list ascii) :
  Matches (Plus (Cls p)) s <-> s <> [] /\ forallb p s = true.
Proof.
  unfold Plus. split.
  - intros H. inversion H; subst.
    match goal with M : Matches (Cls _) _ |- _ => inversion M; subst end.
    match goal with M : Matches (Star _) _ |- _ => apply Matches_Star_Cls in M end.
    simpl. split; [discriminate |].
    match goal with E : p _ = true |- _ => rewrite E end. auto.
  - intros [Hn H]. destruct s as [| c s]; [congruence |].
    simpl in H. apply andb_prop in H as [H1 H2].
    change (c :: s) with ([c] ++ s)%list.
    constructor; [constructor; auto | apply Matches_Star_Cls; auto].
Qed.

(** [[class]+] accepts the non-empty strings over the class. *)
Lemma accepts_Plus_Cls (p : ascii -> bool) (s : list ascii) :
  accepts (Plus (Cls p)) s = (negb (Nat.eqb (List.length s) 0) && forallb p s)%bool.
Proof.
  apply eq_true_iff_eq. rewrite accepts_Matches, Matches_Plus_Cls.
  rewrite andb_true_iff, negb_true_iff, Nat.eqb_neq.
  destruct s; simpl; intuition (try discriminate; try congruence).
Qed.

Lemma chomp_Some (s t : list ascii) :
  chomp s = Some t -> s = (t ++ [newline])%list.
Proof.
  unfold chomp. destruct (rev s) as [| c u] eqn:E; [discriminate |].
  destruct (Ascii.eqb c newline) eqn:Ec; [| discriminate].
  intros H; injection H as <-. apply Ascii.eqb_eq in Ec; subst c.
  rewrite <- (rev_involutive s), E. reflexivity.
Qed.

(** When the class contains the newline, the [$] that matches before a
    final newline adds nothing to [[class]+]. *)
Lemma re_match_Plus_Cls (p : ascii -> bool) (s : string) :
  p newline = true ->
  re_match (Plus (Cls p)) s = accepts (Plus (Cls p)) (list_ascii_of_string s).
Proof.
  intros Hnl. unfold re_match.
  destruct (accepts (Plus (Cls p)) (list_ascii_of_string s)) eqn:E; [reflexivity |].
  simpl. destruct (chomp (list_ascii_of_string s)) as [t |] eqn:Ec; [| reflexivity].
  destruct (accepts (Plus (Cls p)) t) eqn:Et; [| reflexivity].
  apply chomp_Some in Ec. rewrite Ec in E.
  rewrite accepts_Plus_Cls in *.
  apply andb_prop in Et as [_ Ht].
  rewrite forallb_app, Ht in E. simpl in E. rewrite Hnl in E.
  rewrite length_app in E. simpl in E.
  replace (List.length t + 1)%nat with (S (List.length t)) in E by lia.
  discriminate.
Qed.

(** Larger classes, larger language. *)
Lemma widens_Matches (r : regex) (s : list ascii) :
  Matches r s -> forall r', Spec.widens r r' -> Matches r' s.
Proof.
  induction 1; intros r' W; inversion W; subst; eauto using Matches.
Qed.

Lemma str_truthy_length (s : string) :
  str_truthy s = negb (Nat.eqb (List.length (list_ascii_of_string s)) 0).
Proof. destruct s; reflexivity. Qed.

End PyFacts.

(* ================================================================== *)
(** * Facts about the validators *)
(* ================================================================== *)

Module ValidationFacts.

Import ValidationRules.

(** The positive-integer test never raises: the subscript is evaluated only
    after the [isinstance] test succeeded, so the key is there. *)
Lemma not_positive_int_item (r : record) (k : string) :
  not_positive_int (dict_get r k) (dict_item r k)
  = Ok (match lookup r k with
        | Some (PyInt z) => z <=? 0
        | Some (PyBool b) => negb b
        | _ => true
        end).
Proof.
  unfold not_positive_int, dict_get, dict_item.
  destruct (lookup r k) as [[] |]; reflexivity.
Qed.

Lemma not_positive_int_get (r : record) (k : string) :
  not_positive_int (dict_get r k) (Ok (dict_get r k))
  = Ok (match lookup r k with
        | Some (PyInt z) => z <=? 0
        | Some (PyBool b) => negb b
        | _ => true
        end).
Proof.
  unfold not_positive_int, dict_get.
  destruct (lookup r k) as [[] |]; reflexivity.
Qed.

Lemma invalid_id_test (field : option pyval) :
  Spec.invalid_id field ->
  match field with
  | Some (PyInt z) => z <=? 0
  | Some (PyBool b) => negb b
  | _ => true
  end = true.
Proof.
  destruct field as [[] |]; simpl; intros H; auto.
  - subst; reflexivity.
  - apply Z.leb_le; assumption.
Qed.

Lemma positive_int_test (field : option pyval) :
  Spec.positive_int field ->
  match field with
  | Some (PyInt z) => z <=? 0
  | Some (PyBool b) => negb b
  | _ => true
  end = false.
Proof.
  destruct field as [[] |]; simpl; intros H; try contradiction.
  - subst; reflexivity.
  - apply Z.leb_gt; assumption.
Qed.

Lemma positive_or_invalid (field : option pyval) :
  Spec.positive_int field \/ Spec.invalid_id field.
Proof.
  destruct field as [[] |]; simpl; auto.
  - destruct b; auto.
  - lia.
Qed.

Lemma isinstance_int_integer (r : record) (k : string) :
  isinstance_int (dict_get r k) = true <-> Spec.integer (lookup r k).
Proof.
  unfold dict_get. destruct (lookup r k) as [[] |]; simpl; intuition discriminate.
Qed.

Ltac id_test H :=
  first [ rewrite not_positive_int_item | rewrite not_positive_int_get ];
  first [ rewrite (invalid_id_test _ H) | rewrite (positive_int_test _ H) ];
  simpl.

Lemma user_id_check_valid (u : record) :
  Spec.positive_int (lookup u "id") -> user_id_check u = Ok None.
Proof. intros H. unfold user_id_check. id_test H. reflexivity. Qed.

Lemma product_id_check_valid (p : record) :
  Spec.positive_int (lookup p "id") -> product_id_check p = Ok None.
Proof. intros H. unfold product_id_check. id_test H. reflexivity. Qed.

Lemma order_id_check_valid (o : record) :
  Spec.positive_int (lookup o "id") -> order_id_check o = Ok None.
Proof. intros H. unfold order_id_check. id_test H. reflexivity. Qed.

Lemma order_user_id_check_valid (o : record) :
  Spec.positive_int (lookup o "user_id") -> order_user_id_check o = Ok None.
Proof. intros H. unfold order_user_id_check. id_test H. reflexivity. Qed.

(** The third block of [validate_order] repeats the test of the second. *)
Lemma order_product_id_check_valid (o : record) :
  Spec.positive_int (lookup o "user_id") -> order_product_id_check o = Ok None.
Proof. intros H. unfold order_product_id_check. id_test H. reflexivity. Qed.

(** The name test of [validate_user], in closed form. *)
Lemma name_test (name : string) :
  (negb (str_truthy name) || negb (re_match name_regex name))%bool
  = negb (str_truthy name && forallb name_class (list_ascii_of_string name)).
Proof.
  unfold name_regex. rewrite PyFacts.re_match_Plus_Cls by reflexivity.
  rewrite PyFacts.accepts_Plus_Cls, PyFacts.str_truthy_length.
  destruct (Nat.eqb _ 0), (forallb _ _); reflexivity.
Qed.

Lemma user_name_check_str (u : record) (name : string) :
  dict_get_default u "name" (PyStr "") = PyStr name ->
  user_name_check u =
    if (str_truthy (strip name)
        && forallb name_class (list_ascii_of_string (strip name)))%bool
    then Ok None
    else Ok (Some [Lit "Invalid name: "; Fmt (PyStr (strip name));
                   Lit ". Must contain only letters and spaces."]).
Proof.
  intros E. unfold user_name_check. rewrite E. simpl.
  rewrite name_test. destruct (_ && _)%bool; reflexivity.
Qed.

(** What the second and third block of [validate_user] can return. *)
Lemma user_name_check_shape (u : record) :
  user_name_check u = Ok None
  \/ user_name_check u = Raise AttributeError
  \/ (exists n, user_name_check u
                = Ok (Some [Lit "Invalid name: "; Fmt (PyStr n);
                            Lit ". Must contain only letters and spaces."])).
Proof.
  unfold user_name_check, strip_method.
  destruct (dict_get_default u "name" (PyStr "")); simpl; auto.
  destruct (_ || _)%bool; eauto.
Qed.

Lemma user_email_check_shape (u : record) :
  user_email_check u = Ok None
  \/ user_email_check u = Raise AttributeError
  \/ (exists n, user_email_check u
                = Ok (Some [Lit "Invalid email: "; Fmt (PyStr n);
                            Lit ". Must be a valid email address."])).
Proof.
  unfold user_email_check, strip_method.
  destruct (dict_get_default u "email" (PyStr "")); simpl; auto.
  destruct (_ || _)%bool; eauto.
Qed.

(** Every message a validator returns is a non-empty string. *)
Lemma and_then_truthy (c rest : verdict) :
  Spec.truthy_verdict c -> Spec.truthy_verdict rest -> Spec.truthy_verdict (c >>> rest).
Proof.
  unfold Spec.truthy_verdict, and_then. intros Hc Hr m.
  destruct c as [[m' |] | e]; auto.
Qed.

Ltac truthy_block :=
  let m := fresh "m" in
  let H := fresh "H" in
  intros m H;
  repeat match type of H with
         | context [match ?x with _ => _ end] => destruct x; simpl in H
         | context [if ?x then _ else _] => destruct x; simpl in H
         end;
  try discriminate; injection H as <-; reflexivity.

Lemma validate_user_truthy (u : record) : Spec.truthy_verdict (validate_user u).
Proof.
  unfold validate_user. repeat apply and_then_truthy.
  - unfold user_id_check. rewrite not_positive_int_item. simpl. truthy_block.
  - unfold user_name_check, bind. truthy_block.
  - unfold user_email_check, bind. truthy_block.
Qed.

Lemma validate_product_truthy (p : record) : Spec.truthy_verdict (validate_product p).
Proof.
  unfold validate_product. repeat apply and_then_truthy.
  - unfold product_id_check. rewrite not_positive_int_item. simpl. truthy_block.
  - unfold product_name_check, bind. truthy_block.
  - unfold product_price_check. truthy_block.
Qed.

Lemma validate_order_truthy (o : record) : Spec.truthy_verdict (validate_order o).
Proof.
  unfold validate_order. repeat apply and_then_truthy.
  - unfold order_id_check. rewrite not_positive_int_item. simpl. truthy_block.
  - unfold order_user_id_check. rewrite not_positive_int_get. simpl. truthy_block.
  - unfold order_product_id_check. rewrite not_positive_int_get. simpl. truthy_block.
  - unfold order_quantity_check. truthy_block.
Qed.

(** The exceptions of the runtime calls the validators make. *)
Lemma float_raises (v : pyval) (e : exc) :
  float v = Raise e -> e = TypeError \/ e = ValueError \/ e = OverflowError.
Proof.
  destruct v as [| b | z | f | s]; simpl.
  - intros H; injection H as <-; auto.
  - discriminate.
  - unfold float_of_int. destruct (is_infinite _); [| discriminate].
    intros H; injection H as <-; auto.
  - discriminate.
  - unfold float_of_str. destruct (drop_underscores _ _) as [cs |].
    + destruct (parse_float _); [discriminate |].
      intros H; injection H as <-; auto.
    + intros H; injection H as <-; auto.
Qed.

(** A validator raises [AttributeError] (a name or an email that is not a
    string) or [OverflowError] (an integer price too large for a float),
    and nothing else. *)
Lemma validate_user_raises (u : record) (e : exc) :
  validate_user u = Raise e -> e = AttributeError.
Proof.
  unfold validate_user, user_id_check. rewrite not_positive_int_item. simpl.
  destruct (match lookup u "id" with
            | Some (PyInt z) => z <=? 0
            | Some (PyBool b) => negb b
            | _ => true
            end); simpl; [discriminate |].
  destruct (user_name_check_shape u) as [-> | [-> | [n ->]]]; simpl;
    try discriminate; try (intros H; injection H as <-; reflexivity).
  destruct (user_email_check_shape u) as [-> | [-> | [n' ->]]]; simpl;
    try discriminate; intros H; injection H as <-; reflexivity.
Qed.

Lemma validate_product_raises (p : record) (e : exc) :
  validate_product p = Raise e -> e = AttributeError \/ e = OverflowError.
Proof.
  unfold validate_product, product_id_check. rewrite not_positive_int_item. simpl.
  destruct (match lookup p "id" with
            | Some (PyInt z) => z <=? 0
            | Some (PyBool b) => negb b
            | _ => true
            end); simpl; [discriminate |].
  unfold product_name_check, strip_method.
  destruct (dict_get_default p "name" (PyStr "")); simpl;
    try (intros H; injection H as <-; auto).
  destruct (_ || _)%bool; simpl; [discriminate |].
  unfold product_price_check.
  destruct (float (dict_get p "price")) as [f | e0] eqn:Ef.
  - destruct (lt_zero f); discriminate.
  - destruct (float_raises _ _ Ef) as [-> | [-> | ->]]; try discriminate.
    intros H; injection H as <-; auto.
Qed.

(** [validate_order] never raises. *)
Lemma validate_order_total (o : record) : exists v, validate_order o = Ok v.
Proof.
  unfold validate_order, order_id_check, order_user_id_check,
    order_product_id_check, order_quantity_check.
  rewrite not_positive_int_item, !not_positive_int_get. simpl.
  repeat match goal with
         | |- context [if ?x then _ else _] => destruct x; simpl
         end; eauto.
Qed.

Lemma lookup_dict_set (d : record) (k k' : string) (v : pyval) :
  lookup (Spec.dict_set d k v) k'
  = if String.eqb k k' then Some v else lookup d k'.
Proof.
  induction d as [| [k0 v0] d IH]; simpl.
  - reflexivity.
  - destruct (String.eqb k0 k) eqn:E0; simpl.
    + apply String.eqb_eq in E0; subst k0.
      destruct (String.eqb k k'); reflexivity.
    + rewrite IH. destruct (String.eqb k0 k') eqn:E1; [| reflexivity].
      apply String.eqb_eq in E1; subst k0. rewrite String.eqb_sym, E0. reflexivity.
Qed.

Lemma lookup_dict_del (d : record) (k k' : string) :
  lookup (Spec.dict_del d k) k'
  = if String.eqb k k' then None else lookup d k'.
Proof.
  induction d as [| [k0 v0] d IH]; simpl.
  - destruct (String.eqb k k'); reflexivity.
  - destruct (String.eqb k0 k) eqn:E0; simpl.
    + apply String.eqb_eq in E0; subst k0. rewrite IH.
      destruct (String.eqb k k'); reflexivity.
    + rewrite IH. destruct (String.eqb k0 k') eqn:E1; [| reflexivity].
      apply String.eqb_eq in E1; subst k0. rewrite String.eqb_sym, E0. reflexivity.
Qed.

(** [validate_order] depends on three fields only. *)
Lemma validate_order_fields (o o' : record) :
  lookup o "id" = lookup o' "id" ->
  lookup o "user_id" = lookup o' "user_id" ->
  lookup o "quantity" = lookup o' "quantity" ->
  validate_order o = validate_order o'.
Proof.
  intros E1 E2 E3.
  unfold validate_order, order_id_check, order_user_id_check,
    order_product_id_check, order_quantity_check.
  rewrite !not_positive_int_item, !not_positive_int_get.
  unfold dict_get. rewrite E1, E2, E3. reflexivity.
Qed.

End ValidationFacts.

(* ================================================================== *)
(** * The validation rules *)
(* ================================================================== *)

Module ValidationClaims.

Import ValidationRules ValidationFacts DatabaseManager.



(** The same for a missing [id], a string and [False]. *)
Example invalid_id_examples :
  validate_user [("name", PyStr "Alice")]
    = Ok (Some [Lit "Invalid user ID: "; Fmt PyNone;
                Lit ". Must be a positive integer."])
  /\ validate_product [("id", PyStr "7"); ("name", PyStr "Mouse")]
    = Ok (Some [Lit "Invalid product ID: "; Fmt (PyStr "7");
                Lit ". Must be a positive integer"])
  /\ validate_order [("id", PyInt (-3))]
    = Ok (Some [Lit "Invalid order ID: "; Fmt (PyInt (-3));
                Lit ". Must be a positive integer"])
  /\ validate_order [("id", PyFloat (float_of_Z 1))]
    = Ok (Some [Lit "Invalid order ID: "; Fmt (PyFloat (float_of_Z 1));
                Lit ". Must be a positive integer"]).
Proof. repeat split. Qed.

(** C9. With a valid [id], [user_id] and [product_id], an order is accepted
    whenever its [quantity] is an integer, of any sign; a missing or
    non-integer [quantity] gives the message naming it. *)
Theorem any_integer_quantity_accepted (o : record) :
  Spec.positive_int (lookup o "id") ->
  Spec.positive_int (lookup o "user_id") ->
  Spec.positive_int (lookup o "product_id") ->
  (Spec.integer (lookup o "quantity") -> validate_order o = Ok None)
  /\ (~ Spec.integer (lookup o "quantity") ->
      validate_order o
      = Ok (Some [Lit "Invalid quanitty: "; Fmt (dict_get o "quantity");
                  Lit ". Must be an integer."])).
Proof.
  intros Hid Hu _. unfold validate_order.
  rewrite (order_id_check_valid _ Hid), (order_user_id_check_valid _ Hu),
    (order_product_id_check_valid _ Hu). simpl.
  unfold order_quantity_check.
  split; intros H.
  - apply isinstance_int_integer in H. rewrite H. reflexivity.
  - destruct (isinstance_int (dict_get o "quantity")) eqn:E; [| reflexivity].
    apply isinstance_int_integer in E. contradiction.
Qed.

Lemma any_integer_quantity_accepted_witness :
  validate_order (order 9 9 1 (-1)) = Ok None
  /\ validate_order (order 8 8 8 0) = Ok None.
Proof.
  split.
  - apply (any_integer_quantity_accepted (order 9 9 1 (-1)));
      simpl; solve [lia | exact I].
  - apply (any_integer_quantity_accepted (order 8 8 8 0));
      simpl; solve [lia | exact I].
Defined.

Example quantity_examples :
  validate_order [("id", PyInt 1); ("user_id", PyInt 1); ("product_id", PyInt 1)]
    = Ok (Some [Lit "Invalid quanitty: "; Fmt PyNone; Lit ". Must be an integer."])
  /\ validate_order [("id", PyInt 1); ("user_id", PyInt 1); ("product_id", PyInt 1);
                     ("quantity", PyStr "2")]
    = Ok (Some [Lit "Invalid quanitty: "; Fmt (PyStr "2");
                Lit ". Must be an integer."]).
Proof. split; reflexivity. Qed.

(** C10. A boolean is an [int] for [isinstance]: with [id = True] the first
    block of each validator lets the record through ([True <= 0] is false),
    so [validate_user] does not return the id message; with [id = False] it
    returns the id message, naming [False]. *)
Theorem boolean_id_is_an_integer (r : record) (b : bool) :
  lookup r "id" = Some (PyBool b) ->
  isinstance_int (dict_get r "id") = true
  /\ user_id_check r
     = (if b then Ok None
        else Ok (Some [Lit "Invalid user ID: "; Fmt (PyBool false);
                       Lit ". Must be a positive integer."]))
  /\ product_id_check r
     = (if b then Ok None
        else Ok (Some [Lit "Invalid product ID: "; Fmt (PyBool false);
                       Lit ". Must be a positive integer"]))
  /\ order_id_check r
     = (if b then Ok None
        else Ok (Some [Lit "Invalid order ID: "; Fmt (PyBool false);
                       Lit ". Must be a positive integer"]))
  /\ (b = true ->
      validate_user r = (user_name_check r >>> user_email_check r)
      /\ forall v post,
           validate_user r <> Ok (Some [Lit "Invalid user ID: "; Fmt v; Lit post])).
Proof.
  intros E.
  unfold user_id_check, product_id_check, order_id_check.
  rewrite !not_positive_int_item. unfold dict_get. rewrite E. simpl.
  destruct b; simpl; repeat split; auto; try discriminate.
  - unfold validate_user, user_id_check.
    rewrite not_positive_int_item, E. reflexivity.
  - intros v post. unfold validate_user, user_id_check.
    rewrite not_positive_int_item, E. simpl.
    destruct (user_name_check_shape r) as [-> | [-> | [n ->]]];
      simpl; try discriminate.
    destruct (user_email_check_shape r) as [-> | [-> | [n ->]]];
      simpl; discriminate.
Qed.

Lemma boolean_id_is_an_integer_witness :
  validate_user [("id", PyBool true); ("name", PyStr "Alice");
                 ("email", PyStr "alice@example.com")]
  = (user_name_check [("id", PyBool true); ("name", PyStr "Alice");
                      ("email", PyStr "alice@example.com")]
     >>> user_email_check [("id", PyBool true); ("name", PyStr "Alice");
                           ("email", PyStr "alice@example.com")]).
Proof.
  apply (boolean_id_is_an_integer
           [("id", PyBool true); ("name", PyStr "Alice");
            ("email", PyStr "alice@example.com")] true); reflexivity.
Defined.

(** [True] as [id], [user_id] and [quantity] of an order, and as the [id]
    of a user and of a product: all accepted. *)
Example boolean_fields_accepted :
  validate_user [("id", PyBool true); ("name", PyStr "Alice");
                 ("email", PyStr "alice@example.com")] = Ok None
  /\ validate_product [("id", PyBool true); ("name", PyStr "Mouse");
                       ("price", PyBool true)] = Ok None
  /\ validate_order [("id", PyBool true); ("user_id", PyBool true);
                     ("product_id", PyBool true); ("quantity", PyBool true)]
     = Ok None
  /\ validate_order [("id", PyInt 1); ("user_id", PyBool false);
                     ("product_id", PyInt 1); ("quantity", PyInt 1)]
     = Ok (Some [Lit "Invalid user ID: "; Fmt (PyBool false);
                 Lit ". Must be a positive integer"]).
Proof. repeat split. Qed.

(** C1. [validate_order] never reads the [product_id] field: an order with
    a valid [id], [user_id] and [quantity] is accepted with [product_id]
    negative or absent, and setting or deleting [product_id] never changes
    the verdict; the message of the third block, when it is returned, names
    the value of [user_id]. *)
Theorem order_product_id_is_never_read :
  validate_order (order 1 1 (-5) 2) = Ok None
  /\ validate_order [("id", PyInt 1); ("user_id", PyInt 1); ("quantity", PyInt 2)]
     = Ok None
  /\ (forall o v, validate_order (Spec.dict_set o "product_id" v) = validate_order o)
  /\ (forall o, validate_order (Spec.dict_del o "product_id") = validate_order o)
  /\ (forall o, order_product_id_check o = Ok None
                \/ order_product_id_check o
                   = Ok (Some [Lit "Invalid product ID: ";
                               Fmt (dict_get o "user_id");
                               Lit ". Must be a positive integer"])).
Proof.
  repeat split.
  - intros o v. apply validate_order_fields; rewrite lookup_dict_set; reflexivity.
  - intros o. apply validate_order_fields; rewrite lookup_dict_del; reflexivity.
  - intros o. unfold order_product_id_check.
    rewrite not_positive_int_get. simpl.
    destruct (match lookup o "user_id" with
              | Some (PyInt z) => z <=? 0
              | Some (PyBool b) => negb b
              | _ => true
              end); auto.
Qed.

(** In fact the third block never fires: the second one has already
    returned for every [user_id] it would reject. *)
Lemma order_product_message_unreachable (o : record) (v : pyval) (post : string) :
  validate_order o <> Ok (Some [Lit "Invalid product ID: "; Fmt v; Lit post]).
Proof.
  unfold validate_order, order_id_check, order_user_id_check,
    order_product_id_check, order_quantity_check.
  rewrite not_positive_int_item, !not_positive_int_get. simpl.
  destruct (match lookup o "id" with
            | Some (PyInt z) => z <=? 0
            | Some (PyBool b) => negb b
            | _ => true
            end); simpl; [discriminate |].
  destruct (match lookup o "user_id" with
            | Some (PyInt z) => z <=? 0
            | Some (PyBool b) => negb b
            | _ => true
            end); simpl; [discriminate |].
  destruct (isinstance_int (dict_get o "quantity")); simpl; discriminate.
Qed.

(** C6, as stated, fails: a name with two consecutive spaces between two
    runs of letters is not of the shape "runs of letters separated by
    single spaces", and the name check accepts it. *)
Lemma two_spaces_between_names_accepted :
  strip "Alice  Bob" = "Alice  Bob"
  /\ Spec.single_spaced "Alice  Bob" = false
  /\ user_name_check (user 1 "Alice  Bob" "alice@example.com") = Ok None
  /\ validate_user (user 1 "Alice  Bob" "alice@example.com") = Ok None.
Proof. repeat split. Qed.

Lemma name_class_iff (c : ascii) :
  name_class c = true <-> is_letter c = true \/ isspace c = true.
Proof.
  unfold name_class, is_letter. rewrite !orb_true_iff. tauto.
Qed.

Lemma str_truthy_iff (s : string) : str_truthy s = true <-> s <> "".
Proof. destruct s; simpl; split; intros; congruence. Qed.

(** C6, amended. For a user record with a valid id whose name is a string
    (or is absent, which reads as the empty string), the name check accepts
    exactly the trimmed names that are non-empty and made of letters and
    white-space characters only, in any arrangement; a rejected name gives
    the message naming the trimmed name. *)
Theorem name_check_accepts_letters_and_whitespace (u : record) (name : string) :
  Spec.positive_int (lookup u "id") ->
  dict_get_default u "name" (PyStr "") = PyStr name ->
  (user_name_check u = Ok None <->
     strip name <> ""
     /\ Forall (fun c => is_letter c = true \/ isspace c = true)
               (list_ascii_of_string (strip name)))
  /\ (user_name_check u = Ok None -> validate_user u = user_email_check u)
  /\ (user_name_check u <> Ok None ->
      validate_user u
      = Ok (Some [Lit "Invalid name: "; Fmt (PyStr (strip name));
                  Lit ". Must contain only letters and spaces."])).
Proof.
  intros Hid Hname.
  pose proof (user_name_check_str u name Hname) as Hc.
  assert (Hv : validate_user u = (user_name_check u >>> user_email_check u)).
  { unfold validate_user. rewrite (user_id_check_valid _ Hid). reflexivity. }
  destruct (str_truthy (strip name)
            && forallb name_class (list_ascii_of_string (strip name)))%bool eqn:E.
  - apply andb_prop in E as [Et Ef].
    split; [split | split].
    + intros _. split.
      * apply str_truthy_iff; assumption.
      * rewrite forallb_forall in Ef. apply Forall_forall.
        intros c Hc'. apply name_class_iff. auto.
    + intros _. assumption.
    + intros _. rewrite Hv, Hc. reflexivity.
    + intros Hn. contradiction.
  - split; [split | split].
    + rewrite Hc. discriminate.
    + intros [Hne Hall]. exfalso.
      apply str_truthy_iff in Hne. rewrite Hne in E. simpl in E.
      assert (forallb name_class (list_ascii_of_string (strip name)) = true).
      { apply forallb_forall. intros c Hc'. apply name_class_iff.
        rewrite Forall_forall in Hall. auto. }
      congruence.
    + rewrite Hc. discriminate.
    + intros _. rewrite Hv, Hc. reflexivity.
Qed.

Lemma name_check_accepts_letters_and_whitespace_witness :
  validate_user (user 1 "Alice  Bob" "alice@example.com")
  = user_email_check (user 1 "Alice  Bob" "alice@example.com").
Proof.
  apply (name_check_accepts_letters_and_whitespace
           (user 1 "Alice  Bob" "alice@example.com") "Alice  Bob").
  - simpl. lia.
  - reflexivity.
  - reflexivity.
Defined.

(** The examples of the specification, and two names with other white
    space between the runs of letters. *)
Example name_examples :
  user_name_check (user 1 "Alice" "alice@example.com") = Ok None
  /\ validate_user (user 1 " Alice123 " "alice@example.com")
     = Ok (Some [Lit "Invalid name: "; Fmt (PyStr "Alice123");
                 Lit ". Must contain only letters and spaces."])
  /\ user_name_check
       [("id", PyInt 1);
        ("name", PyStr (String "A" (String (ascii_of_N 9) (String "B" ""))))]
     = Ok None
  /\ user_name_check
       [("id", PyInt 1);
        ("name", PyStr (String "A" (String newline (String "B" ""))))]
     = Ok None
  /\ validate_user [("id", PyInt 1); ("email", PyStr "alice@example.com")]
     = Ok (Some [Lit "Invalid name: "; Fmt (PyStr "");
                 Lit ". Must contain only letters and spaces."]).
Proof. repeat split. Qed.

(** The local part of the source's pattern allows what the specification
    lists, and the space. *)
Lemma email_local_class_is_spec_plus_space (c : ascii) :
  email_local_class c = true <-> Spec.spec_local_class c = true \/ c = " "%char.
Proof.
  unfold email_local_class, Spec.spec_local_class, is_letter.
  rewrite !orb_true_iff, (Ascii.eqb_eq c " "). tauto.
Qed.

Lemma email_regex_widens_spec : Spec.widens Spec.spec_email email_regex.
Proof.
  unfold Spec.spec_email, email_regex, Plus, AtLeast2, Chr.
  repeat constructor; auto.
  - intros c H. apply email_local_class_is_spec_plus_space. auto.
  - intros c H. apply email_local_class_is_spec_plus_space. auto.
  - unfold Spec.spec_domain_class, email_domain_class, is_letter.
    intros c. rewrite !orb_true_iff. tauto.
  - unfold Spec.spec_domain_class, email_domain_class, is_letter.
    intros c. rewrite !orb_true_iff. tauto.
Qed.

(** Every address of the specification's shape passes the email test. *)
Lemma spec_email_shape_accepted (s : string) :
  Spec.spec_email_shape s = true -> re_match email_regex s = true.
Proof.
  unfold Spec.spec_email_shape, re_match. intros H.
  apply PyFacts.accepts_Matches in H.
  pose proof (PyFacts.widens_Matches _ _ H _ email_regex_widens_spec) as M.
  apply PyFacts.accepts_Matches in M. rewrite M. reflexivity.
Qed.

(** C7. The character class of the local part contains the space, so an
    address with a space in its local part, which is not of the shape the
    specification describes, passes the email check and the whole of
    [validate_user]. *)
Theorem email_with_space_in_local_part_accepted :
  email_local_class " " = true
  /\ Spec.spec_email_shape "al ice@example.com" = false
  /\ strip "al ice@example.com" = "al ice@example.com"
  /\ user_email_check (user 1 "Alice" "al ice@example.com") = Ok None
  /\ validate_user (user 1 "Alice" "al ice@example.com") = Ok None.
Proof. repeat split. Qed.

(** The examples of the specification behave as it says. *)
Example email_examples :
  validate_user (user 1 "Alice" "alice@example.com") = Ok None
  /\ validate_user (user 1 "Alice" "alice@@example")
     = Ok (Some [Lit "Invalid email: "; Fmt (PyStr "alice@@example");
                 Lit ". Must be a valid email address."])
  /\ validate_user (user 1 "Alice" "a_b@example.com")
     = Ok (Some [Lit "Invalid email: "; Fmt (PyStr "a_b@example.com");
                 Lit ". Must be a valid email address."])
  /\ validate_user (user 1 "Alice" "alice@example.c")
     = Ok (Some [Lit "Invalid email: "; Fmt (PyStr "alice@example.c");
                 Lit ". Must be a valid email address."]).
Proof. repeat split. Qed.

(** C8. [float] of an integer too large for a float raises
    [OverflowError], which the [except (TypeError, ValueError)] clause does
    not handle: [validate_product] raises instead of returning the "Must be
    a number" message. *)
Theorem huge_integer_price_raises :
  float (PyInt (10 ^ 400)) = Raise OverflowError
  /\ Spec.positive_int (lookup [("id", PyInt 1); ("name", PyStr "Laptop");
                                ("price", PyInt (10 ^ 400))] "id")
  /\ product_name_check [("id", PyInt 1); ("name", PyStr "Laptop");
                         ("price", PyInt (10 ^ 400))] = Ok None
  /\ validate_product [("id", PyInt 1); ("name", PyStr "Laptop");
                       ("price", PyInt (10 ^ 400))] = Raise OverflowError.
Proof. repeat split; vm_compute; reflexivity. Qed.

(** The three cases of the price check, for the prices [float] returns on
    or rejects with [TypeError] or [ValueError]. *)
Lemma product_price_check_cases (p : record) :
  Spec.positive_int (lookup p "id") ->
  product_name_check p = Ok None ->
  validate_product p = product_price_check p
  /\ (float (dict_get p "price") = Raise TypeError
      \/ float (dict_get p "price") = Raise ValueError ->
      product_price_check p
      = Ok (Some [Lit "Invalid price: "; Fmt (dict_get p "price");
                  Lit ". Must be a number."]))
  /\ (forall f, float (dict_get p "price") = Ok f -> lt_zero f = true ->
      product_price_check p
      = Ok (Some [Lit "Invalid price: "; Fmt (dict_get p "price");
                  Lit ". Price must be non-negative."]))
  /\ (forall f, float (dict_get p "price") = Ok f -> lt_zero f = false ->
      product_price_check p = Ok None).
Proof.
  intros Hid Hname. unfold validate_product.
  rewrite (product_id_check_valid _ Hid), Hname. simpl.
  unfold product_price_check. repeat split.
  - intros [-> | ->]; reflexivity.
  - intros f -> ->. reflexivity.
  - intros f -> ->. reflexivity.
Qed.

Example price_examples :
  validate_product [("id", PyInt 1); ("name", PyStr "Mouse"); ("price", PyStr "abc")]
    = Ok (Some [Lit "Invalid price: "; Fmt (PyStr "abc"); Lit ". Must be a number."])
  /\ validate_product [("id", PyInt 1); ("name", PyStr "Mouse")]
    = Ok (Some [Lit "Invalid price: "; Fmt PyNone; Lit ". Must be a number."])
  /\ validate_product (product 10 "Earbuds" (-50))
    = Ok (Some [Lit "Invalid price: "; Fmt (PyFloat (float_of_Z (-50)));
                Lit ". Price must be non-negative."])
  /\ validate_product (product 6 "Mouse" 30) = Ok None
  /\ validate_product [("id", PyInt 1); ("name", PyStr "Mouse"); ("price", PyStr " 1_0.5e1 ")]
    = Ok None
  /\ validate_product [("id", PyInt 1); ("name", PyStr "Mouse"); ("price", PyStr "-0.5")]
    = Ok (Some [Lit "Invalid price: "; Fmt (PyStr "-0.5");
                Lit ". Price must be non-negative."]).
Proof. repeat split. Qed.

End ValidationClaims.

(* ================================================================== *)
(** * Facts about the insertion path *)
(* ================================================================== *)

Module InsertionFacts.

Import ValidationRules ValidationFacts DatabaseManager.

Lemma validation_of_truthy (k : kind) (r : record) :
  Spec.truthy_verdict (validation_of k r).
Proof.
  destruct k; simpl.
  - apply validate_user_truthy.
  - apply validate_product_truthy.
  - apply validate_order_truthy.
Qed.

Section Insert.

Variable B : backend.
Variables db_path table : string.
Variable validation_func : record -> verdict.

Lemma insert_validation_raises (r : record) (d : db B) (e : exc) :
  validation_func r = Raise e -> _insert_record B db_path table r validation_func d = (Raise e, d).
Proof. intros E. unfold _insert_record. rewrite E. reflexivity. Qed.

Lemma insert_validation_error (r : record) (d : db B) (m : message) :
  validation_func r = Ok (Some m) ->
  message_truthy m = true ->
  _insert_record B db_path table r validation_func d
  = (Ok {| out_record := r; out_status := validation_error;
           out_detail := error m |}, d).
Proof.
  intros E T. unfold _insert_record. rewrite E. simpl. rewrite T. reflexivity.
Qed.

(** The dict a task returns carries the task's own record. *)
Lemma insert_keeps_record (r : record) (d d' : db B) (o : outcome) :
  _insert_record B db_path table r validation_func d = (Ok o, d') -> out_record o = r.
Proof.
  unfold _insert_record.
  destruct (validation_func r) as [v | e]; [| discriminate].
  destruct (truthy v).
  - intros H; injection H as <- _. reflexivity.
  - destruct (execute B _ _ _ d) as [[n | []] d1];
      intros H; try discriminate; injection H as <- _; reflexivity.
Qed.

(** The store is touched only after the validator returned a falsy value. *)
Lemma insert_writes_only_validated (r : record) (d : db B) :
  snd (_insert_record B db_path table r validation_func d) <> d ->
  exists v, validation_func r = Ok v /\ truthy v = false.
Proof.
  unfold _insert_record.
  destruct (validation_func r) as [v | e]; simpl; [| congruence].
  destruct (truthy v) eqn:T; simpl; [congruence |]. eauto.
Qed.

(** What leaves [_insert_record] as an exception: whatever the validator
    raises, and whatever the storage block raises other than
    [sqlite3.Error]. *)
Lemma insert_raises (r : record) (d d' : db B) (e : exc) :
  _insert_record B db_path table r validation_func d = (Raise e, d') ->
  validation_func r = Raise e
  \/ (exists v, validation_func r = Ok v /\ truthy v = false)
     /\ forall text, e <> Sqlite3Error text.
Proof.
  unfold _insert_record.
  destruct (validation_func r) as [v | e0].
  - destruct (truthy v) eqn:T; [discriminate |].
    destruct (execute B _ _ _ d) as [[n | e1] d1]; [discriminate |].
    destruct e1; intros H; try discriminate; injection H as <- _;
      right; (split; [eauto | discriminate]).
  - intros H; injection H as <- _. auto.
Qed.

(** An exception that leaves [_insert_record] was raised by the validator
    or by the storage block. *)
Lemma insert_raises_from (r : record) (d d' : db B) (e : exc) :
  _insert_record B db_path table r validation_func d = (Raise e, d') ->
  validation_func r = Raise e
  \/ fst (execute B db_path (insert_query table r) (values r) d) = Raise e.
Proof.
  unfold _insert_record.
  destruct (validation_func r) as [v | e0].
  - destruct (truthy v); [discriminate |].
    destruct (execute B _ _ _ d) as [[n | e1] d1]; [discriminate |].
    destruct e1; intros H; try discriminate; injection H as <- _; auto.
  - intros H; injection H as <- _. auto.
Qed.

End Insert.

Section Pool.

Variable B : backend.
Variable task : record -> db B -> result outcome * db B.
Variable data : list record.

(** Each future belongs to a task of the batch and holds what the task
    returned in the state in which it ran. *)
Lemma run_workers_futures (order : list nat) :
  forall d,
  Forall (fun f => exists r d0, nth_error data (fst f) = Some r
                                /\ snd f = fst (task r d0))
         (fst (run_workers B task data order d)).
Proof.
  induction order as [| i rest IH]; intros d; simpl.
  - constructor.
  - destruct (nth_error data i) as [r |] eqn:E; [| apply IH].
    destruct (task r d) as [res d1] eqn:Et.
    specialize (IH d1).
    destruct (run_workers B task data rest d1) as [futures d2].
    simpl in *. constructor; [| assumption].
    exists r, d. simpl. rewrite Et. auto.
Qed.

(** Every task named in the order and present in the batch has a future. *)
Lemma run_workers_covers (order : list nat) :
  forall d i, In i order -> (i < List.length data)%nat ->
  In i (map fst (fst (run_workers B task data order d))).
Proof.
  induction order as [| j rest IH]; intros d i Hin Hlt; simpl in *.
  - contradiction.
  - destruct (nth_error data j) as [r |] eqn:E.
    + destruct (task r d) as [res d1].
      specialize (IH d1 i).
      destruct (run_workers B task data rest d1) as [futures d2].
      simpl in *. destruct Hin as [-> | Hin]; auto.
    + destruct Hin as [-> | Hin]; [| apply IH; assumption].
      apply nth_error_None in E. lia.
Qed.

End Pool.

Lemma future_of_In (futures : list (nat * result outcome)) (i : nat) :
  In i (map fst futures) ->
  exists res, future_of futures i = Some res.
Proof.
  induction futures as [| [j res] rest IH]; simpl; [contradiction |].
  intros [-> | Hin].
  - rewrite Nat.eqb_refl. eauto.
  - destruct (Nat.eqb j i); eauto.
Qed.

Lemma future_of_Some (futures : list (nat * result outcome)) (i : nat)
    (res : result outcome) :
  future_of futures i = Some res -> In (i, res) futures.
Proof.
  induction futures as [| [j res'] rest IH]; simpl; [discriminate |].
  destruct (Nat.eqb j i) eqn:E.
  - apply Nat.eqb_eq in E; subst. intros H; injection H as ->. auto.
  - auto.
Qed.

(** When every future yielded holds a dict, the comprehension returns
    them in the order of [done]. *)
Lemma collect_ok (futures : list (nat * result outcome)) (done : list nat) :
  (forall i, In i done -> exists o, future_of futures i = Some (Ok o)) ->
  exists os, collect futures done = Ok os
             /\ Forall2 (fun i o => future_of futures i = Some (Ok o)) done os.
Proof.
  induction done as [| i rest IH]; intros H; simpl.
  - exists []. split; [reflexivity | constructor].
  - destruct (H i (or_introl eq_refl)) as [o Ho].
    destruct IH as [os [Hc Hf]]; [intros j Hj; apply H; right; assumption |].
    rewrite Ho, Hc. simpl. exists (o :: os). split; [reflexivity |].
    constructor; assumption.
Qed.


(** Conversely, what it raises is held by a future it was given. *)
Lemma collect_raises_inv (futures : list (nat * result outcome)) (done : list nat)
    (e : exc) :
  collect futures done = Raise e ->
  exists i, In i done /\ future_of futures i = Some (Raise e).
Proof.
  induction done as [| j rest IH]; simpl; [discriminate |].
  destruct (future_of futures j) as [[o | e1] |] eqn:Ej.
  - destruct (collect futures rest) as [os | e2]; simpl; [discriminate |].
    intros H; injection H as ->.
    destruct IH as [i [Hi Hf]]; eauto.
  - intros H; injection H as ->. eauto.
  - intros H. destruct (IH H) as [i [Hi Hf]]. eauto.
Qed.

Lemma map_nth_seq {A : Type} (l : list A) (dflt : A) :
  map (fun i => nth i l dflt) (seq 0 (List.length l)) = l.
Proof.
  induction l as [| a l IH]; simpl; [reflexivity |].
  f_equal. rewrite <- seq_shift, map_map. exact IH.
Qed.

(** Reading a list through a permutation of its positions permutes it. *)
Lemma positions_permute {A B : Type} (f : B -> A) (l : list A) (done : list nat)
    (os : list B) :
  Permutation done (seq 0 (List.length l)) ->
  Forall2 (fun i o => nth_error l i = Some (f o)) done os ->
  List.length os = List.length l /\ Permutation (map f os) l.
Proof.
  intros Hp Hf. split.
  - rewrite <- (Forall2_length Hf), (Permutation_length Hp). apply length_seq.
  - destruct l as [| a l'].
    + simpl in Hp. apply Permutation_sym, Permutation_nil in Hp. subst done.
      inversion Hf. constructor.
    + remember (a :: l') as l0 eqn:El0. clear El0.
      assert (E : map f os = map (fun i => nth i l0 a) done).
      { clear Hp. induction Hf as [| i o done os Hi _ IH]; simpl; [reflexivity |].
        rewrite IH. f_equal. symmetry. apply nth_error_nth. assumption. }
      rewrite E.
      apply Permutation_trans
        with (map (fun i => nth i l0 a) (seq 0 (List.length l0))).
      * apply Permutation_map. assumption.
      * rewrite map_nth_seq. apply Permutation_refl.
Qed.

(** No validator raises an [sqlite3.Error]. *)
Lemma validation_of_raises (k : kind) (r : record) (e : exc) :
  validation_of k r = Raise e -> forall text, e <> Sqlite3Error text.
Proof.
  destruct k; simpl; intros H text.
  - apply validate_user_raises in H; subst; discriminate.
  - apply validate_product_raises in H as [-> | ->]; discriminate.
  - destruct (validate_order_total r) as [v Hv]; congruence.
Qed.

Section Batch.

Variable B : backend.
Variable k : kind.
Variable s : schedule.
Variable data : list record.
Variable d : db B.

Lemma run_batch_fst :
  fst (run_batch B k s data d)
  = collect (fst (submit_all B k s data d)) (done_order s).
Proof.
  unfold run_batch. destruct (submit_all B k s data d); reflexivity.
Qed.

Lemma run_batch_snd :
  snd (run_batch B k s data d) = snd (submit_all B k s data d).
Proof.
  unfold run_batch. destruct (submit_all B k s data d); reflexivity.
Qed.

Lemma future_is_task_result (i : nat) (res : result outcome) :
  future_of (fst (submit_all B k s data d)) i = Some res ->
  exists r d0,
    nth_error data i = Some r
    /\ res = fst (_insert_record B (db_path_of k) (table_of k) r
                                 (validation_of k) d0).
Proof.
  intros H. apply future_of_Some in H.
  pose proof (run_workers_futures B
                (fun r => _insert_record B (db_path_of k) (table_of k) r
                                         (validation_of k))
                data (exec_order s) d) as F.
  rewrite Forall_forall in F. apply (F (i, res)). exact H.
Qed.

(** A worker never lets an [sqlite3.Error] through. *)
Lemma worker_exception_unclassified (i : nat) (e : exc) :
  Spec.worker_raised B k s data d i e -> forall text, e <> Sqlite3Error text.
Proof.
  intros H. apply future_is_task_result in H as [r [d0 [_ H]]].
  destruct (_insert_record B (db_path_of k) (table_of k) r (validation_of k) d0)
    as [res d1] eqn:E.
  simpl in H; subst res.
  apply insert_raises in E as [E | [_ E]]; [| exact E].
  eapply validation_of_raises; eassumption.
Qed.

(** No worker raises when the validator returns on every record of the
    batch and the storage block raises nothing but [sqlite3.Error] on their
    statements. *)
Lemma no_worker_raises :
  (forall r, In r data -> exists v, validation_of k r = Ok v) ->
  (forall r d0 e, In r data ->
     fst (execute B (db_path_of k) (insert_query (table_of k) r) (values r) d0)
     = Raise e ->
     exists text, e = Sqlite3Error text) ->
  forall i e, ~ Spec.worker_raised B k s data d i e.
Proof.
  intros Hv Hs i e Hr.
  pose proof (worker_exception_unclassified i e Hr) as Hn.
  apply future_is_task_result in Hr as [r [d0 [Hi Hr]]].
  apply nth_error_In in Hi.
  destruct (_insert_record B (db_path_of k) (table_of k) r (validation_of k) d0)
    as [res d1] eqn:E.
  simpl in Hr; subst res.
  apply insert_raises_from in E as [E | E].
  - destruct (Hv r Hi) as [v Hv']. congruence.
  - destruct (Hs r d0 e Hi E) as [text ->]. exact (Hn text eq_refl).
Qed.

Hypothesis Hfair : fair (List.length data) s.

Lemma every_task_has_a_future (i : nat) :
  (i < List.length data)%nat ->
  exists res, future_of (fst (submit_all B k s data d)) i = Some res.
Proof.
  intros Hlt. apply future_of_In. apply run_workers_covers; [| assumption].
  destruct Hfair as [He _].
  apply (Permutation_in i (Permutation_sym He)). apply in_seq. lia.
Qed.

Lemma yielded_is_a_task (i : nat) :
  In i (done_order s) <-> (i < List.length data)%nat.
Proof.
  destruct Hfair as [_ Hd]. split; intros H.
  - apply (Permutation_in i Hd) in H. apply in_seq in H. lia.
  - apply (Permutation_in i (Permutation_sym Hd)). apply in_seq. lia.
Qed.

(** The exception of a validator reaches the future of the task. *)
Lemma validation_exception_reaches_future (i : nat) (r : record) (e : exc) :
  nth_error data i = Some r ->
  validation_of k r = Raise e ->
  Spec.worker_raised B k s data d i e.
Proof.
  intros Hi Hv. unfold Spec.worker_raised.
  assert (Hlt : (i < List.length data)%nat).
  { apply nth_error_Some. congruence. }
  destruct (every_task_has_a_future i Hlt) as [res Hres].
  rewrite Hres. f_equal.
  apply future_is_task_result in Hres as [r' [d0 [Hi' ->]]].
  assert (r' = r) by congruence. subst r'.
  rewrite (insert_validation_raises B _ _ _ r d0 e Hv). reflexivity.
Qed.


(** If no worker raised, the batch returns one dict for each record. *)
Lemma run_batch_returns :
  (forall i e, ~ Spec.worker_raised B k s data d i e) ->
  exists results,
    fst (run_batch B k s data d) = Ok results
    /\ List.length results = List.length data
    /\ Permutation (map out_record results) data.
Proof.
  intros Hno. rewrite run_batch_fst.
  destruct (collect_ok (fst (submit_all B k s data d)) (done_order s))
    as [os [Hc Hf]].
  { intros i Hi. apply yielded_is_a_task in Hi.
    destruct (every_task_has_a_future i Hi) as [[o | e] Hres]; eauto.
    exfalso. exact (Hno i e Hres). }
  exists os. split; [exact Hc |].
  apply positions_permute with (done := done_order s).
  - apply Hfair.
  - eapply Forall2_impl; [| exact Hf].
    intros i o H. simpl in H.
    apply future_is_task_result in H as [r [d0 [Hi Ho]]].
    rewrite Hi. f_equal. symmetry.
    destruct (_insert_record B (db_path_of k) (table_of k) r (validation_of k) d0)
      as [res d1] eqn:E.
    simpl in Ho; subst res.
    eapply insert_keeps_record; eassumption.
Qed.


End Batch.


End InsertionFacts.

(* ================================================================== *)
(** * The insertion path and the orchestrator *)
(* ================================================================== *)

Module InsertionClaims.

Import ValidationRules ValidationFacts DatabaseManager InsertionFacts.

(** C3. Whatever the kind, when the validator returns a message,
    [_insert_record] returns the dict with the record, the status
    [validation_error] and that message, and the store is left as it was:
    the storage block is not entered. *)
Theorem rejected_record_is_not_written (B : backend) (k : kind) (r : record)
    (d : db B) (m : message) :
  validation_of k r = Ok (Some m) ->
  _insert_record B (db_path_of k) (table_of k) r (validation_of k) d
  = (Ok {| out_record := r; out_status := validation_error;
           out_detail := error m |}, d).
Proof.
  intros H. apply insert_validation_error; [exact H |].
  exact (validation_of_truthy k r m H).
Qed.

Lemma rejected_record_is_not_written_witness :
  _insert_record MemDb.sqlite "users.db" "users" (user 10 "" "jane@example.com")
    validate_user [("users.db", [PyInt 1; PyStr "Alice"; PyStr "alice@example.com"])]
  = (Ok {| out_record := user 10 "" "jane@example.com";
           out_status := validation_error;
           out_detail := error [Lit "Invalid name: "; Fmt (PyStr "");
                                Lit ". Must contain only letters and spaces."] |},
     [("users.db", [PyInt 1; PyStr "Alice"; PyStr "alice@example.com"])]).
Proof.
  apply (rejected_record_is_not_written MemDb.sqlite users
           (user 10 "" "jane@example.com")).
  reflexivity.
Defined.

(** A store that changed was given a record its validator accepted. *)
Lemma written_record_was_validated (B : backend) (k : kind) (r : record) (d : db B) :
  snd (_insert_record B (db_path_of k) (table_of k) r (validation_of k) d) <> d ->
  validation_of k r = Ok None.
Proof.
  intros H. apply insert_writes_only_validated in H as [[m |] [Hv Ht]].
  - simpl in Ht. rewrite (validation_of_truthy k r m Hv) in Ht. discriminate.
  - exact Hv.
Qed.


Lemma other_storage_exception_escapes (B : backend) (k : kind) (r : record)
    (d d' : db B) (e : exc) :
  validation_of k r = Ok None ->
  execute B (db_path_of k) (insert_query (table_of k) r) (values r) d
  = (Raise e, d') ->
  (forall text, e <> Sqlite3Error text) ->
  _insert_record B (db_path_of k) (table_of k) r (validation_of k) d
  = (Raise e, d').
Proof.
  intros Hv He Hn. unfold _insert_record. rewrite Hv. simpl. rewrite He.
  destruct e; try reflexivity. exfalso. exact (Hn text eq_refl).
Qed.

(** On the reference backend: a column the table does not have is an
    [sqlite3.Error], an integer that does not fit 64 bits is not. *)
Example storage_failures :
  _insert_record MemDb.sqlite "users.db" "users"
    [("id", PyInt 1); ("name", PyStr "Alice");
     ("email", PyStr "alice@example.com"); ("age", PyInt 30)]
    validate_user []
  = (Ok {| out_record := [("id", PyInt 1); ("name", PyStr "Alice");
                          ("email", PyStr "alice@example.com"); ("age", PyInt 30)];
           out_status := insertion_error;
           out_detail := error [Lit "unsupported statement"] |}, [])
  /\ _insert_record MemDb.sqlite "orders.db" "orders" (order (2 ^ 63) 1 1 1)
       validate_order []
     = (Raise OverflowError, []).
Proof. split; reflexivity. Qed.




(** C4, as stated, fails: a batch of two records, one of which makes its
    worker raise, has no result list at all. *)
Lemma batch_with_a_raising_worker_has_no_result_list :
  run_batch MemDb.sqlite orders (in_order 2)
    [order 1 1 1 2; order 2 (2 ^ 63) 1 1] []
  = (Raise OverflowError, [("orders.db", [PyInt 1; PyInt 1; PyInt 1; PyInt 2])]).
Proof. reflexivity. Qed.

(** C4, amended. Under any backend and any fair schedule, a batch in which
    no worker raises returns a list with one dict for each record: as many
    dicts as records, and their ['record'] entries are the batch up to
    order. *)
Theorem batch_outcomes_permute_the_batch (B : backend) (k : kind) (s : schedule)
    (data : list record) (d : db B) :
  fair (List.length data) s ->
  (forall i e, ~ Spec.worker_raised B k s data d i e) ->
  exists results,
    fst (run_batch B k s data d) = Ok results
    /\ List.length results = List.length data
    /\ Permutation (map out_record results) data.
Proof.
  intros Hfair Hno. apply run_batch_returns; assumption.
Qed.

Lemma batch_outcomes_permute_the_batch_witness :
  exists results,
    fst (run_batch MemDb.sqlite users
           {| exec_order := [1; 0; 2]%nat; done_order := [0; 2; 1]%nat |}
           [user 1 "Alice" "alice@example.com";
            user 2 "Bob" "bob@example.com";
            user 10 "" "jane@example.com"] [])
    = Ok results
    /\ List.length results = 3%nat
    /\ Permutation (map out_record results)
         [user 1 "Alice" "alice@example.com";
          user 2 "Bob" "bob@example.com";
          user 10 "" "jane@example.com"].
Proof.
  apply (batch_outcomes_permute_the_batch MemDb.sqlite users
           {| exec_order := [1; 0; 2]%nat; done_order := [0; 2; 1]%nat |}
           [user 1 "Alice" "alice@example.com";
            user 2 "Bob" "bob@example.com";
            user 10 "" "jane@example.com"] []).
  - split; simpl.
    + apply perm_swap.
    + apply perm_skip, perm_swap.
  - intros i e. unfold Spec.worker_raised.
    destruct i as [| [| [| i]]]; vm_compute; discriminate.
Defined.

(** The reference backend raises [OverflowError] only for an integer
    that does not fit 64 bits. *)
Lemma MemDb_execute_raises (path query : string) (params : list pyval)
    (d : MemDb.state) (e : exc) :
  forallb MemDb.int64 params = true ->
  fst (MemDb.execute path query params d) = Raise e ->
  exists text, e = Sqlite3Error text.
Proof.
  intros Hp. unfold MemDb.execute. rewrite Hp. simpl.
  destruct (String.eqb query (MemDb.statement_of path)); simpl; [discriminate |].
  intros H; injection H as <-. eauto.
Qed.

(** No record of the sample data makes its worker raise. *)
Lemma sample_batch_returns (k : kind) (s : schedule) (data : list record)
    (d : MemDb.state) :
  fair (List.length data) s ->
  Forall (fun r => (exists v, validation_of k r = Ok v)
                   /\ forallb MemDb.int64 (values r) = true) data ->
  exists results,
    fst (run_batch MemDb.sqlite k s data d) = Ok results
    /\ List.length results = List.length data
    /\ Permutation (map out_record results) data.
Proof.
  intros Hfair Hdata. rewrite Forall_forall in Hdata.
  apply run_batch_returns; [assumption |].
  apply no_worker_raises.
  - intros r Hr. apply (Hdata r Hr).
  - intros r d0 e Hr. apply MemDb_execute_raises. apply (Hdata r Hr).
Qed.

Ltac sample_data :=
  repeat (constructor; [split; [eexists |]; vm_compute; reflexivity |]);
  constructor.

(** [simulate_insertions] on the reference backend: whatever the store it
    starts from and whatever the three schedules, it returns ten dicts for
    each kind, for the ten records of the kind. *)
Lemma simulate_insertions_returns (su sp so : schedule) (d : MemDb.state) :
  fair 10 su -> fair 10 sp -> fair 10 so ->
  exists res,
    fst (simulate_insertions MemDb.sqlite su sp so d) = Ok res
    /\ (List.length (res_users res) = 10%nat
        /\ Permutation (map out_record (res_users res)) users_data)
    /\ (List.length (res_products res) = 10%nat
        /\ Permutation (map out_record (res_products res)) products_data)
    /\ (List.length (res_orders res) = 10%nat
        /\ Permutation (map out_record (res_orders res)) orders_data).
Proof.
  intros Hu Hp Ho.
  unfold simulate_insertions, insertions.
  change (_create_tables MemDb.sqlite d) with (@Ok unit tt, d).
  destruct (sample_batch_returns users su users_data d Hu) as [ru [Eu Pu]];
    [sample_data |].
  destruct (run_batch MemDb.sqlite users su users_data d) as [ru' d1].
  simpl in Eu; subst ru'.
  destruct (sample_batch_returns products sp products_data d1 Hp) as [rp [Ep Pp]];
    [sample_data |].
  destruct (run_batch MemDb.sqlite products sp products_data d1) as [rp' d2].
  simpl in Ep; subst rp'.
  destruct (sample_batch_returns orders so orders_data d2 Ho) as [ro [Eo Po]];
    [sample_data |].
  destruct (run_batch MemDb.sqlite orders so orders_data d2) as [ro' d3].
  simpl in Eo; subst ro'.
  eexists. split; [reflexivity |]. simpl. auto.
Qed.

(** The sample run, tasks taken and yielded in the order of submission:
    ten dicts for each kind; the last user and the last product are
    rejected by their validators, every order is accepted. *)
Example sample_run :
  match fst (simulate_insertions MemDb.sqlite (in_order 10) (in_order 10)
               (in_order 10) []) with
  | Ok res =>
      map out_status (res_users res)
      = [success; success; success; success; success; success; success;
         success; success; validation_error]
      /\ map out_status (res_products res)
         = [success; success; success; success; success; success; success;
            success; success; validation_error]
      /\ map out_status (res_orders res)
         = [success; success; success; success; success; success; success;
            success; success; success]
      /\ map out_record (res_users res) = users_data
      /\ map out_record (res_products res) = products_data
      /\ map out_record (res_orders res) = orders_data
  | Raise _ => False
  end.
Proof. vm_compute. repeat split. Qed.

End InsertionClaims.

(* ================================================================== *)
(** * Further properties of the validators *)
(* ================================================================== *)

Module ValidationExtras.

Import ValidationRules ValidationFacts.

(** ** [str.strip] *)

Lemma lstrip_head (s : list ascii) (c : ascii) (t : list ascii) :
  lstrip s = c :: t -> isspace c = false.
Proof.
  induction s as [| a s IH]; simpl; [discriminate |].
  destruct (isspace a) eqn:E; [exact IH |].
  intros H; injection H as <- _. exact E.
Qed.

Lemma lstrip_lstrip (s : list ascii) : lstrip (lstrip s) = lstrip s.
Proof.
  destruct (lstrip s) as [| c t] eqn:E; [reflexivity |].
  simpl. rewrite (lstrip_head _ _ _ E). reflexivity.
Qed.

Lemma lstrip_app_nonspace (l : list ascii) (c : ascii) (m : list ascii) :
  isspace c = false -> lstrip (l ++ c :: m) = (lstrip l ++ c :: m)%list.
Proof.
  intros H. induction l as [| a l IH]; simpl.
  - rewrite H. reflexivity.
  - destruct (isspace a); [exact IH | reflexivity].
Qed.

Lemma strip_chars_trimmed (s : list ascii) : Spec.trimmed (strip_chars s).
Proof.
  unfold strip_chars, rstrip, Spec.trimmed.
  destruct (lstrip s) as [| c t] eqn:E; [split; reflexivity |].
  pose proof (lstrip_head _ _ _ E) as Hc.
  simpl rev at 2 4. rewrite (lstrip_app_nonspace _ _ _ Hc).
  rewrite rev_app_distr. simpl. rewrite Hc. split; [reflexivity |].
  rewrite rev_involutive. apply lstrip_lstrip.
Qed.

Lemma strip_chars_of_trimmed (t : list ascii) :
  Spec.trimmed t -> strip_chars t = t.
Proof.
  intros [H1 H2]. unfold strip_chars, rstrip.
  rewrite H1, H2. apply rev_involutive.
Qed.

Lemma strip_trimmed (s : string) :
  Spec.trimmed (list_ascii_of_string (strip s)).
Proof.
  unfold strip. rewrite list_ascii_of_string_of_list_ascii.
  apply strip_chars_trimmed.
Qed.

(** Trimming twice is trimming once. *)
Lemma strip_idempotent (s : string) : strip (strip s) = strip s.
Proof.
  unfold strip at 1. rewrite (strip_chars_of_trimmed _ (strip_trimmed s)).
  apply string_of_list_ascii_of_string.
Qed.

(** A trimmed string has no final newline for [$] to step over. *)
Lemma chomp_trimmed (t : list ascii) : Spec.trimmed t -> chomp t = None.
Proof.
  intros [_ H]. unfold chomp.
  destruct (rev t) as [| c u] eqn:E; [reflexivity |].
  destruct (Ascii.eqb c newline) eqn:Ec; [| reflexivity].
  apply Ascii.eqb_eq in Ec; subst c.
  apply lstrip_head in H. discriminate.
Qed.

Lemma re_match_trimmed (r : regex) (s : string) :
  re_match r (strip s) = accepts r (list_ascii_of_string (strip s)).
Proof.
  unfold re_match. rewrite (chomp_trimmed _ (strip_trimmed s)).
  apply orb_false_r.
Qed.

(** ** The email pattern *)

Lemma Matches_Seq (r1 r2 : regex) (s : list ascii) :
  Matches (Seq r1 r2) s <->
  exists s1 s2, s = (s1 ++ s2)%list /\ Matches r1 s1 /\ Matches r2 s2.
Proof.
  split.
  - intros H; inversion H; subst; eauto.
  - intros [s1 [s2 [-> [H1 H2]]]]. constructor; assumption.
Qed.

Lemma Matches_Chr (c : ascii) (s : list ascii) :
  Matches (Chr c) s <-> s = [c].
Proof.
  unfold Chr. split.
  - intros H; inversion H; subst.
    match goal with E : Ascii.eqb _ _ = true |- _ => apply Ascii.eqb_eq in E end.
    congruence.
  - intros ->. constructor. apply Ascii.eqb_refl.
Qed.

Lemma Matches_AtLeast2_Cls (p : ascii -> bool) (s : list ascii) :
  Matches (AtLeast2 (Cls p)) s <->
  (2 <= List.length s)%nat /\ forallb p s = true.
Proof.
  unfold AtLeast2. rewrite Matches_Seq. split.
  - intros [s1 [s2 [-> [H1 H2]]]].
    inversion H1; subst.
    apply (PyFacts.Matches_Plus_Cls p) in H2 as [Hn Hf].
    simpl. rewrite Hf.
    match goal with E : p _ = true |- _ => rewrite E end.
    split; [| reflexivity]. destruct s2; [congruence | simpl; lia].
  - intros [Hl Hf]. destruct s as [| c s]; [simpl in Hl; lia |].
    simpl in Hf. apply andb_prop in Hf as [Hc Hf].
    exists [c], s. split; [reflexivity |]. split; [constructor; exact Hc |].
    apply (PyFacts.Matches_Plus_Cls p). split; [| exact Hf].
    destruct s; [simpl in Hl; lia | discriminate].
Qed.

(** The language of the email pattern, in words. *)
Lemma email_regex_shape (cs : list ascii) :
  Matches email_regex cs <-> Spec.email_shape cs.
Proof.
  unfold email_regex, Spec.email_shape. split.
  - intros H.
    apply Matches_Seq in H as [lo [r1 [-> [Hlo H]]]].
    apply Matches_Seq in H as [at_ [r2 [-> [Hat H]]]].
    apply Matches_Seq in H as [dom [r3 [-> [Hdom H]]]].
    apply Matches_Seq in H as [dot [tld [-> [Hdot Htld]]]].
    apply Matches_Chr in Hat, Hdot. subst at_ dot.
    apply PyFacts.Matches_Plus_Cls in Hlo as [? ?], Hdom as [? ?].
    apply Matches_AtLeast2_Cls in Htld as [? ?].
    exists lo, dom, tld. simpl. repeat split; assumption.
  - intros [lo [dom [tld [-> [H1 [H2 [H3 [H4 [H5 H6]]]]]]]]].
    apply Matches_Seq. exists lo, ("@"%char :: dom ++ "."%char :: tld)%list.
    split; [reflexivity |]. split; [apply PyFacts.Matches_Plus_Cls; auto |].
    apply Matches_Seq. exists ["@"%char], (dom ++ "."%char :: tld)%list.
    split; [reflexivity |]. split; [apply Matches_Chr; reflexivity |].
    apply Matches_Seq. exists dom, ("."%char :: tld)%list.
    split; [reflexivity |]. split; [apply PyFacts.Matches_Plus_Cls; auto |].
    apply Matches_Seq. exists ["."%char], tld.
    split; [reflexivity |]. split; [apply Matches_Chr; reflexivity |].
    apply Matches_AtLeast2_Cls; auto.
Qed.

Lemma user_email_check_str (u : record) (email : string) :
  dict_get_default u "email" (PyStr "") = PyStr email ->
  user_email_check u =
    if (str_truthy (strip email) && re_match email_regex (strip email))%bool
    then Ok None
    else Ok (Some [Lit "Invalid email: "; Fmt (PyStr (strip email));
                   Lit ". Must be a valid email address."]).
Proof.
  intros E. unfold user_email_check. rewrite E. simpl.
  destruct (str_truthy (strip email)), (re_match email_regex (strip email));
    reflexivity.
Qed.

Lemma user_email_check_iff (u : record) (email : string) :
  dict_get_default u "email" (PyStr "") = PyStr email ->
  (user_email_check u = Ok None
   <-> Spec.email_shape (list_ascii_of_string (strip email))).
Proof.
  intros E. rewrite (user_email_check_str _ _ E), re_match_trimmed.
  rewrite <- email_regex_shape, <- PyFacts.accepts_Matches.
  destruct (accepts email_regex (list_ascii_of_string (strip email))) eqn:A.
  - assert (T : str_truthy (strip email) = true).
    { destruct (strip email); [discriminate A | reflexivity]. }
    rewrite T. simpl. tauto.
  - rewrite andb_false_r. split; discriminate.
Qed.

Lemma user_name_check_iff (u : record) (name : string) :
  dict_get_default u "name" (PyStr "") = PyStr name ->
  (user_name_check u = Ok None <-> Spec.user_name_ok (strip name)).
Proof.
  intros E. rewrite (user_name_check_str _ _ E). unfold Spec.user_name_ok.
  destruct (str_truthy (strip name)) eqn:T; simpl.
  - destruct (forallb name_class (list_ascii_of_string (strip name))) eqn:F.
    + split; [intros _ | reflexivity]. split.
      * destruct (strip name); [discriminate T | discriminate].
      * apply Forall_forall. intros c Hc. rewrite forallb_forall in F.
        specialize (F c Hc). unfold name_class, is_letter in *.
        rewrite !orb_true_iff in *. tauto.
    + split; [discriminate |]. intros [_ H]. exfalso.
      assert (forallb name_class (list_ascii_of_string (strip name)) = true);
        [| congruence].
      apply forallb_forall. intros c Hc. rewrite Forall_forall in H.
      specialize (H c Hc). unfold name_class, is_letter in *.
      rewrite !orb_true_iff in *. tauto.
  - split; [discriminate |]. intros [H _].
    destruct (strip name); [congruence | discriminate T].
Qed.

Lemma product_name_test (name : string) :
  (negb (str_truthy name) || negb (re_match product_name_regex name))%bool
  = negb (str_truthy name
          && forallb product_name_class (list_ascii_of_string name)).
Proof.
  unfold product_name_regex. rewrite PyFacts.re_match_Plus_Cls by reflexivity.
  rewrite PyFacts.accepts_Plus_Cls, PyFacts.str_truthy_length.
  destruct (Nat.eqb _ 0), (forallb _ _); reflexivity.
Qed.

Lemma product_name_check_str (p : record) (name : string) :
  dict_get_default p "name" (PyStr "") = PyStr name ->
  product_name_check p =
    if (str_truthy (strip name)
        && forallb product_name_class (list_ascii_of_string (strip name)))%bool
    then Ok None
    else Ok (Some [Lit "Invalid product name: "; Fmt (PyStr (strip name));
                   Lit ". Must contain only letters and sapaces."]).
Proof.
  intros E. unfold product_name_check. rewrite E. simpl.
  rewrite product_name_test. destruct (_ && _)%bool; reflexivity.
Qed.

Lemma product_name_check_iff (p : record) (name : string) :
  dict_get_default p "name" (PyStr "") = PyStr name ->
  (product_name_check p = Ok None <-> Spec.product_name_ok (strip name)).
Proof.
  intros E. rewrite (product_name_check_str _ _ E). unfold Spec.product_name_ok.
  destruct (str_truthy (strip name)) eqn:T; simpl.
  - destruct (forallb product_name_class (list_ascii_of_string (strip name))) eqn:F.
    + split; [intros _ | reflexivity]. split.
      * destruct (strip name); [discriminate T | discriminate].
      * apply Forall_forall. intros c Hc. rewrite forallb_forall in F.
        specialize (F c Hc). unfold product_name_class, is_letter in *.
        rewrite !orb_true_iff in *. tauto.
    + split; [discriminate |]. intros [_ H]. exfalso.
      assert (forallb product_name_class (list_ascii_of_string (strip name)) = true);
        [| congruence].
      apply forallb_forall. intros c Hc. rewrite Forall_forall in H.
      specialize (H c Hc). unfold product_name_class, is_letter in *.
      rewrite !orb_true_iff in *. tauto.
  - split; [discriminate |]. intros [H _].
    destruct (strip name); [congruence | discriminate T].
Qed.

Lemma name_check_not_str (u : record) :
  (forall s, dict_get_default u "name" (PyStr "") <> PyStr s) ->
  user_name_check u = Raise AttributeError
  /\ product_name_check u = Raise AttributeError.
Proof.
  intros H. unfold user_name_check, product_name_check, strip_method.
  destruct (dict_get_default u "name" (PyStr "")); auto.
  exfalso. eapply H; reflexivity.
Qed.

Lemma email_check_not_str (u : record) :
  (forall s, dict_get_default u "email" (PyStr "") <> PyStr s) ->
  user_email_check u = Raise AttributeError.
Proof.
  intros H. unfold user_email_check, strip_method.
  destruct (dict_get_default u "email" (PyStr "")); auto.
  exfalso. eapply H; reflexivity.
Qed.

Lemma str_or_not (v : pyval) : (exists s, v = PyStr s) \/ (forall s, v <> PyStr s).
Proof. destruct v; eauto; right; discriminate. Qed.

Lemma positive_not_invalid (field : option pyval) :
  Spec.positive_int field -> Spec.invalid_id field -> False.
Proof.
  destruct field as [[] |]; simpl; intros; try contradiction; try congruence; lia.
Qed.

Lemma user_id_check_invalid (u : record) :
  Spec.invalid_id (lookup u "id") -> exists m, user_id_check u = Ok (Some m).
Proof. intros H. unfold user_id_check. id_test H. eauto. Qed.

Lemma product_id_check_invalid (p : record) :
  Spec.invalid_id (lookup p "id") -> exists m, product_id_check p = Ok (Some m).
Proof. intros H. unfold product_id_check. id_test H. eauto. Qed.



(** When [validate_user] accepts. *)
Lemma validate_user_accepts_iff (u : record) :
  validate_user u = Ok None <->
  Spec.positive_int (lookup u "id")
  /\ (exists name, dict_get_default u "name" (PyStr "") = PyStr name
                   /\ Spec.user_name_ok (strip name))
  /\ (exists email, dict_get_default u "email" (PyStr "") = PyStr email
                    /\ Spec.email_shape (list_ascii_of_string (strip email))).
Proof.
  unfold validate_user. split.
  - intros H.
    destruct (positive_or_invalid (lookup u "id")) as [Hid | Hid].
    2:{ destruct (user_id_check_invalid _ Hid) as [m Hm].
        rewrite Hm in H. discriminate. }
    rewrite (user_id_check_valid _ Hid) in H. simpl in H.
    split; [exact Hid |].
    destruct (str_or_not (dict_get_default u "name" (PyStr ""))) as [[n Hn] | Hn].
    2:{ rewrite (proj1 (name_check_not_str _ Hn)) in H. discriminate. }
    destruct (user_name_check u) as [[m |] | e] eqn:En; try discriminate.
    simpl in H. split.
    + exists n. split; [exact Hn |]. apply (user_name_check_iff _ _ Hn). exact En.
    + destruct (str_or_not (dict_get_default u "email" (PyStr ""))) as [[e He] | He].
      2:{ rewrite (email_check_not_str _ He) in H. discriminate. }
      exists e. split; [exact He |]. apply (user_email_check_iff _ _ He). exact H.
  - intros [Hid [[n [Hn Hok]] [e [He Hsh]]]].
    rewrite (user_id_check_valid _ Hid).
    apply (user_name_check_iff _ _ Hn) in Hok.
    apply (user_email_check_iff _ _ He) in Hsh.
    rewrite Hok. simpl. exact Hsh.
Qed.



(** When [validate_product] accepts. *)
Lemma validate_product_accepts_iff (p : record) :
  validate_product p = Ok None <->
  Spec.positive_int (lookup p "id")
  /\ (exists name, dict_get_default p "name" (PyStr "") = PyStr name
                   /\ Spec.product_name_ok (strip name))
  /\ (exists f, float (dict_get p "price") = Ok f /\ lt_zero f = false).
Proof.
  unfold validate_product. split.
  - intros H.
    destruct (positive_or_invalid (lookup p "id")) as [Hid | Hid].
    2:{ destruct (product_id_check_invalid _ Hid) as [m Hm].
        rewrite Hm in H. discriminate. }
    rewrite (product_id_check_valid _ Hid) in H. simpl in H.
    split; [exact Hid |].
    destruct (str_or_not (dict_get_default p "name" (PyStr ""))) as [[n Hn] | Hn].
    2:{ rewrite (proj2 (name_check_not_str _ Hn)) in H. discriminate. }
    destruct (product_name_check p) as [[m |] | e] eqn:En; try discriminate.
    simpl in H. split.
    + exists n. split; [exact Hn |]. apply (product_name_check_iff _ _ Hn). exact En.
    + unfold product_price_check in H.
      destruct (float (dict_get p "price")) as [f | e].
      * exists f. split; [reflexivity |].
        destruct (lt_zero f); [discriminate | reflexivity].
      * destruct e; discriminate.
  - intros [Hid [[n [Hn Hok]] [f [Hf Hlt]]]].
    rewrite (product_id_check_valid _ Hid).
    apply (product_name_check_iff _ _ Hn) in Hok.
    rewrite Hok. simpl. unfold product_price_check. rewrite Hf, Hlt. reflexivity.
Qed.


End ValidationExtras.

(* ================================================================== *)
(** * Further properties of the insertion path *)
(* ================================================================== *)

Module InsertionExtras.

Import ValidationRules ValidationFacts DatabaseManager InsertionFacts Main.

Lemma insert_outcome (B : backend) (k : kind) (r : record) (d d' : db B)
    (o : outcome) :
  _insert_record B (db_path_of k) (table_of k) r (validation_of k) d = (Ok o, d') ->
  out_record o = r /\ Spec.explains B k r d d' o.
Proof.
  unfold _insert_record, Spec.explains.
  destruct (validation_of k r) as [[m |] | e] eqn:Ev; [| | discriminate].
  - simpl. rewrite (validation_of_truthy k r m Ev).
    intros H; injection H as <- <-. simpl. eauto.
  - simpl.
    destruct (execute B _ _ _ d) as [[n | e] d1] eqn:Ee.
    + intros H; injection H as <- <-. simpl. eauto.
    + destruct e; try discriminate.
      intros H; injection H as <- <-. simpl. eauto.
Qed.

Lemma collect_In (futures : list (nat * result outcome)) (done : list nat)
    (os : list outcome) :
  collect futures done = Ok os ->
  forall o, In o os ->
  exists i, In i done /\ future_of futures i = Some (Ok o).
Proof.
  revert os. induction done as [| j rest IH]; simpl; intros os H o Ho.
  - injection H as <-. contradiction.
  - destruct (future_of futures j) as [[oj | e] |] eqn:Ej.
    + destruct (collect futures rest) as [os' | e]; simpl in H; [| discriminate].
      injection H as <-. destruct Ho as [<- | Ho]; eauto.
      destruct (IH os' eq_refl o Ho) as [i [Hi Hf]]. eauto.
    + discriminate.
    + destruct (IH os H o Ho) as [i [Hi Hf]]. eauto.
Qed.

Lemma collect_Forall2 (futures : list (nat * result outcome)) (done : list nat)
    (os : list outcome) :
  collect futures done = Ok os ->
  (forall i, In i done -> future_of futures i <> None) ->
  Forall2 (fun i o => future_of futures i = Some (Ok o)) done os.
Proof.
  revert os. induction done as [| j rest IH]; simpl; intros os H Hn.
  - injection H as <-. constructor.
  - destruct (future_of futures j) as [[oj | e] |] eqn:Ej.
    + destruct (collect futures rest) as [os' | e]; simpl in H; [| discriminate].
      injection H as <-. constructor; [exact Ej |].
      apply IH; [reflexivity |]. intros i Hi. apply Hn. auto.
    + discriminate.
    + exfalso. apply (Hn j); auto.
Qed.

Section Pool.

Variable B : backend.
Variable task : record -> db B -> result outcome * db B.
Variable data : list record.

Lemma run_workers_no_write (order : list nat) (d : db B) :
  (forall r d0, In r data -> snd (task r d0) = d0) ->
  snd (run_workers B task data order d) = d.
Proof.
  intros H. induction order as [| i rest IH]; simpl; [reflexivity |].
  destruct (nth_error data i) as [r |] eqn:E; [| exact IH].
  pose proof (H r d (nth_error_In _ _ E)) as Hr.
  destruct (task r d) as [res d1]. simpl in Hr. subst d1.
  destruct (run_workers B task data rest d) as [futures d2]. exact IH.
Qed.

End Pool.

Lemma run_workers_empty (B : backend)
    (task : record -> db B -> result outcome * db B) (order : list nat) (d : db B) :
  run_workers B task [] order d = ([], d).
Proof.
  induction order as [| i rest IH]; simpl; [reflexivity |].
  destruct i; exact IH.
Qed.

Lemma collect_empty (done : list nat) : collect [] done = Ok [].
Proof. induction done; simpl; auto. Qed.

Lemma insert_query_keys (table : string) (r r' : record) :
  keys r = keys r' -> insert_query table r = insert_query table r'.
Proof.
  intros H. unfold insert_query. rewrite H.
  replace (map (fun _ : string * pyval => "?") r')
    with (map (fun _ : string => "?") (keys r'))
    by (unfold keys; rewrite map_map; reflexivity).
  replace (map (fun _ : string * pyval => "?") r)
    with (map (fun _ : string => "?") (keys r))
    by (unfold keys; rewrite map_map; reflexivity).
  rewrite H. reflexivity.
Qed.

End InsertionExtras.

(* ================================================================== *)
(** * Rounding an integer to a float *)
(* ================================================================== *)

Module FloatFacts.

Lemma digits2_pos_size (m : positive) : digits2_pos m = Pos.size m.
Proof. induction m; simpl; congruence. Qed.

Lemma digits2_pos_bound (m : positive) :
  2 ^ (Zpos (digits2_pos m) - 1) <= Zpos m.
Proof.
  induction m as [m IH | m IH |]; simpl digits2_pos.
  - rewrite Pos2Z.inj_succ. replace (Z.succ (Zpos (digits2_pos m)) - 1) with (Z.succ (Zpos (digits2_pos m) - 1)) by lia.
    rewrite Z.pow_succ_r by lia. lia.
  - rewrite Pos2Z.inj_succ. replace (Z.succ (Zpos (digits2_pos m)) - 1) with (Z.succ (Zpos (digits2_pos m) - 1)) by lia.
    rewrite Z.pow_succ_r by lia. lia.
  - simpl. lia.
Qed.

Lemma shr_1_m (mrs : shr_record) :
  0 <= shr_m mrs -> shr_m (shr_1 mrs) = Z.div2 (shr_m mrs).
Proof.
  destruct mrs as [m r s]. simpl. intros H.
  destruct m as [| [p | p |] | p]; simpl; try reflexivity; lia.
Qed.

Lemma iter_shr_1_m (p : positive) :
  forall mrs, 0 <= shr_m mrs ->
  shr_m (iter_pos shr_1 p mrs) = Z.shiftr (shr_m mrs) (Zpos p).
Proof.
  assert (H1 : forall mrs, 0 <= shr_m mrs -> shr_m (shr_1 mrs) = Z.shiftr (shr_m mrs) 1
                                            /\ 0 <= shr_m (shr_1 mrs)).
  { intros mrs H. rewrite shr_1_m by assumption. rewrite Z.div2_spec. split; [reflexivity|].
    apply Z.shiftr_nonneg. assumption. }
  induction p as [p IH | p IH |]; intros mrs H; simpl.
  - destruct (H1 mrs H) as [E1 N1].
    rewrite IH; [rewrite IH by assumption | rewrite IH by assumption; apply Z.shiftr_nonneg; assumption].
    rewrite E1, !Z.shiftr_shiftr by lia. f_equal. lia.
  - rewrite IH; [rewrite IH by assumption | rewrite IH by assumption; apply Z.shiftr_nonneg; assumption].
    rewrite !Z.shiftr_shiftr by lia. f_equal. lia.
  - apply H1. assumption.
Qed.

Lemma shr_record_of_loc_m (m : Z) (l : location) : shr_m (shr_record_of_loc m l) = m.
Proof. destruct l as [| []]; reflexivity. Qed.

Lemma shr_fexp_positive (m : positive) (e : Z) (l : location) :
  -1074 < e ->
  0 < shr_m (fst (shr_fexp prec emax (Zpos m) e l))
  /\ -1074 < snd (shr_fexp prec emax (Zpos m) e l).
Proof.
  intros He. unfold shr_fexp, shr.
  destruct (fexp prec emax (Zdigits2 (Zpos m) + e) - e) as [| p | p] eqn:En;
    simpl fst; simpl snd; rewrite ?shr_record_of_loc_m; try (split; lia).
  rewrite iter_shr_1_m; rewrite shr_record_of_loc_m; [| lia].
  split; [| lia].
  rewrite Z.shiftr_div_pow2 by lia.
  assert (Hp : Zpos p <= Zpos (digits2_pos m) - 1).
  { unfold fexp, emin, prec, emax in En. simpl Zdigits2 in En. lia. }
  pose proof (digits2_pos_bound m) as Hm.
  assert (Hpow : 2 ^ Zpos p <= 2 ^ (Zpos (digits2_pos m) - 1))
    by (apply Z.pow_le_mono_r; lia).
  apply Z.div_str_pos. split; [apply Z.pow_pos_nonneg; lia | lia].
Qed.

Lemma round_nearest_even_ge (m : Z) (l : location) : m <= round_nearest_even m l.
Proof.
  unfold round_nearest_even. destruct l as [| []]; try lia.
  destruct (Z.even m); lia.
Qed.

Lemma binary_round_aux_sign (sx : bool) (m : positive) (e : Z) (l : location) :
  -1074 < e ->
  (exists m' e', binary_round_aux prec emax sx (Zpos m) e l = S754_finite sx m' e')
  \/ binary_round_aux prec emax sx (Zpos m) e l = S754_infinity sx.
Proof.
  intros He. unfold binary_round_aux.
  pose proof (shr_fexp_positive m e l He) as [H1 H2].
  destruct (shr_fexp prec emax (Zpos m) e l) as [mrs' e'].
  cbn [fst snd] in H1, H2.
  pose proof (round_nearest_even_ge (shr_m mrs') (loc_of_shr_record mrs')) as Hr.
  destruct (round_nearest_even (shr_m mrs') (loc_of_shr_record mrs')) as [| m2 | m2];
    try lia.
  pose proof (shr_fexp_positive m2 e' loc_Exact H2) as [H3 _].
  destruct (shr_fexp prec emax (Zpos m2) e' loc_Exact) as [mrs'' e''].
  cbn [fst snd] in H3.
  destruct (shr_m mrs'') as [| m3 | m3]; try lia.
  destruct (e'' <=? emax - prec); eauto.
Qed.

Lemma float_of_Z_sign (m : positive) (sx : bool) :
  (exists m' e', binary_round prec emax sx m 0 = S754_finite sx m' e')
  \/ binary_round prec emax sx m 0 = S754_infinity sx.
Proof.
  unfold binary_round, shl_align.
  destruct (fexp prec emax (Zpos (digits2_pos m) + 0) - 0) as [| d | d] eqn:E;
    apply binary_round_aux_sign; try lia.
  unfold fexp, emin, prec, emax in *. lia.
Qed.

Lemma digits2_pos_upper (m : positive) : Zpos m < 2 ^ Zpos (digits2_pos m).
Proof.
  induction m as [m IH | m IH |]; simpl digits2_pos;
    rewrite ?Pos2Z.inj_succ, ?Z.pow_succ_r by lia; lia.
Qed.

Lemma digits2_pos_le (m : positive) (K : Z) :
  0 <= K -> Zpos m <= 2 ^ K -> Zpos (digits2_pos m) <= K + 1.
Proof.
  intros HK Hm. pose proof (digits2_pos_bound m) as Hb.
  destruct (Z_le_gt_dec (Zpos (digits2_pos m)) (K + 1)) as [| Hgt]; [assumption |].
  exfalso.
  assert (2 ^ (K + 1) <= 2 ^ (Zpos (digits2_pos m) - 1))
    by (apply Z.pow_le_mono_r; lia).
  replace (K + 1) with (Z.succ K) in H by lia.
  rewrite Z.pow_succ_r in H by lia.
  assert (0 < 2 ^ K) by (apply Z.pow_pos_nonneg; lia). lia.
Qed.

Lemma shr_fexp_bounds (m : positive) (e K : Z) (l : location) :
  -1074 < e -> 0 <= K -> Zpos m <= 2 ^ K ->
  0 < shr_m (fst (shr_fexp prec emax (Zpos m) e l)) <= 2 ^ K
  /\ -1074 < snd (shr_fexp prec emax (Zpos m) e l) <= Z.max e (K + e - 52).
Proof.
  intros He HK Hm.
  pose proof (shr_fexp_positive m e l He) as [H1 H2].
  pose proof (digits2_pos_le m K HK Hm) as Hd.
  revert H1 H2. unfold shr_fexp, shr.
  destruct (fexp prec emax (Zdigits2 (Zpos m) + e) - e) as [| p | p] eqn:En;
    simpl fst; simpl snd; rewrite ?shr_record_of_loc_m; try lia.
  rewrite iter_shr_1_m; rewrite shr_record_of_loc_m; [| lia].
  intros H1 H2. split; [split; [assumption |] | split; [assumption |]].
  - rewrite Z.shiftr_div_pow2 by lia.
    assert (0 < 2 ^ Zpos p) by (apply Z.pow_pos_nonneg; lia).
    assert (Zpos m / 2 ^ Zpos p <= Zpos m)
      by (apply Z.div_le_upper_bound; nia).
    lia.
  - unfold fexp, emin, prec, emax in En. simpl Zdigits2 in En. lia.
Qed.

Lemma round_nearest_even_le (m : Z) (l : location) : round_nearest_even m l <= m + 1.
Proof.
  unfold round_nearest_even. destruct l as [| []]; try lia.
  destruct (Z.even m); lia.
Qed.

Lemma binary_round_aux_finite (sx : bool) (m : positive) (e : Z) (l : location) :
  -1074 < e <= 0 -> Zpos m <= 2 ^ 63 ->
  exists m' e', binary_round_aux prec emax sx (Zpos m) e l = S754_finite sx m' e'.
Proof.
  intros He Hm. unfold binary_round_aux.
  pose proof (shr_fexp_bounds m e 63 l (proj1 He) ltac:(lia) Hm) as [H1 H2].
  destruct (shr_fexp prec emax (Zpos m) e l) as [mrs' e'].
  cbn [fst snd] in H1, H2.
  pose proof (round_nearest_even_ge (shr_m mrs') (loc_of_shr_record mrs')) as Hr.
  pose proof (round_nearest_even_le (shr_m mrs') (loc_of_shr_record mrs')) as Hr'.
  destruct (round_nearest_even (shr_m mrs') (loc_of_shr_record mrs')) as [| m2 | m2];
    try lia.
  assert (Hm2 : Zpos m2 <= 2 ^ 64).
  { assert (E64 : 2 ^ 64 = 2 * 2 ^ 63) by reflexivity.
    rewrite E64. destruct H1 as [_ H1]. lia. }
  pose proof (shr_fexp_bounds m2 e' 64 loc_Exact (proj1 H2) ltac:(lia) Hm2) as [H3 H4].
  destruct (shr_fexp prec emax (Zpos m2) e' loc_Exact) as [mrs'' e''].
  cbn [fst snd] in H3, H4.
  destruct (shr_m mrs'') as [| m3 | m3]; try lia.
  replace (e'' <=? emax - prec) with true; [eauto |].
  symmetry. apply Z.leb_le. unfold emax, prec. lia.
Qed.

Lemma iter_xO (m p : positive) : Zpos (Pos.iter xO m p) = Zpos m * 2 ^ Zpos p.
Proof.
  induction p as [| p IH] using Pos.peano_ind.
  - simpl. lia.
  - rewrite Pos.iter_succ, Pos2Z.inj_succ, Z.pow_succ_r by lia.
    rewrite Pos2Z.inj_xO, IH. lia.
Qed.

Lemma binary_round_finite (sx : bool) (m : positive) :
  Zpos m <= 2 ^ 63 ->
  exists m' e', binary_round prec emax sx m 0 = S754_finite sx m' e'.
Proof.
  intros Hm. unfold binary_round, shl_align.
  destruct (fexp prec emax (Zpos (digits2_pos m) + 0) - 0) as [| d | d] eqn:E;
    apply binary_round_aux_finite; try lia; try assumption.
  - unfold fexp, emin, prec, emax in *. lia.
  - rewrite iter_xO.
    pose proof (digits2_pos_upper m) as Hu.
    assert (Hd : Zpos d = 53 - Zpos (digits2_pos m))
      by (unfold fexp, emin, prec, emax in E; lia).
    assert (Zpos m * 2 ^ Zpos d < 2 ^ Zpos (digits2_pos m) * 2 ^ Zpos d).
    { apply Z.mul_lt_mono_pos_r; [apply Z.pow_pos_nonneg; lia | assumption]. }
    rewrite <- Z.pow_add_r in H by lia.
    replace (Zpos (digits2_pos m) + Zpos d) with 53 in H by lia.
    assert (2 ^ 53 <= 2 ^ 63) by (apply Z.pow_le_mono_r; lia). lia.
Qed.

(** [float(n)] of a negative integer is a negative float or overflows;
    of a non-negative one it is zero or positive, or overflows. *)
Lemma float_of_int_sign (z : Z) :
  float_of_int z = Raise OverflowError
  \/ exists f, float_of_int z = Ok f /\ lt_zero f = (z <? 0).
Proof.
  unfold float_of_int, float_of_Z, binary_normalize.
  destruct z as [| m | m].
  - right. eexists. split; reflexivity.
  - destruct (float_of_Z_sign m false) as [[m' [e' ->]] | ->]; simpl; eauto.
  - destruct (float_of_Z_sign m true) as [[m' [e' ->]] | ->]; simpl; eauto.
Qed.

(** No overflow in the signed 64-bit range. *)
Lemma float_of_int_64 (z : Z) :
  - 2 ^ 63 <= z < 2 ^ 63 ->
  exists f, float_of_int z = Ok f /\ lt_zero f = (z <? 0).
Proof.
  intros Hz. unfold float_of_int, float_of_Z, binary_normalize.
  destruct z as [| m | m].
  - eexists. split; reflexivity.
  - destruct (binary_round_finite false m) as [m' [e' ->]]; [lia |].
    simpl. eauto.
  - destruct (binary_round_finite true m) as [m' [e' ->]]; [lia |].
    simpl. eauto.
Qed.

End FloatFacts.

(* ================================================================== *)
(** * Further properties *)
(* ================================================================== *)

Module Extras.

Import ValidationRules ValidationFacts ValidationExtras.
Import DatabaseManager InsertionFacts InsertionExtras Main.

(** X1. [validate_user] accepts a record exactly when its id is a positive
    integer, its name is a string whose trimmed value is non-empty and made
    of letters and white space, and its email is a string whose trimmed
    value has the shape [local@domain.tld] of the pattern. *)
Theorem validate_user_accepts (u : record) :
  validate_user u = Ok None <->
  Spec.positive_int (lookup u "id")
  /\ (exists name, dict_get_default u "name" (PyStr "") = PyStr name
                   /\ Spec.user_name_ok (strip name))
  /\ (exists email, dict_get_default u "email" (PyStr "") = PyStr email
                    /\ Spec.email_shape (list_ascii_of_string (strip email))).
Proof. apply validate_user_accepts_iff. Qed.


(** X3. [validate_product] accepts a record exactly when its id is a
    positive integer, its name is a string whose trimmed value is non-empty
    and made of letters, digits and white space, and [float(price)] returns
    a float that is not below zero (which includes NaN, infinity and
    minus zero). *)
Theorem validate_product_accepts (p : record) :
  validate_product p = Ok None <->
  Spec.positive_int (lookup p "id")
  /\ (exists name, dict_get_default p "name" (PyStr "") = PyStr name
                   /\ Spec.product_name_ok (strip name))
  /\ (exists f, float (dict_get p "price") = Ok f /\ lt_zero f = false).
Proof. apply validate_product_accepts_iff. Qed.

(** Prices [float] turns into NaN, infinity or minus zero are accepted. *)
Example unusual_prices_accepted :
  validate_product [("id", PyInt 1); ("name", PyStr "Mouse"); ("price", PyStr "nan")]
  = Ok None
  /\ validate_product [("id", PyInt 1); ("name", PyStr "Mouse"); ("price", PyStr "inf")]
     = Ok None
  /\ validate_product [("id", PyInt 1); ("name", PyStr "Mouse"); ("price", PyStr "-0.0")]
     = Ok None
  /\ validate_product [("id", PyInt 1); ("name", PyStr "Mouse"); ("price", PyStr "-1e-400")]
     = Ok None.
Proof. repeat split. Qed.



(** X6. For a string email, the email check passes exactly when the
    trimmed email splits as [local @ domain . tld] with a non-empty local
    part over [[a-zA-Z0-9. %+-]], a non-empty domain over [[a-zA-Z0-9.-]]
    and two or more letters at the end. *)
Theorem email_check_accepts_the_shape (u : record) (email : string) :
  dict_get_default u "email" (PyStr "") = PyStr email ->
  (user_email_check u = Ok None
   <-> Spec.email_shape (list_ascii_of_string (strip email))).
Proof. apply user_email_check_iff. Qed.

Lemma email_check_accepts_the_shape_witness :
  Spec.email_shape (list_ascii_of_string (strip " bob.b+x@mail.example.org ")).
Proof.
  apply (email_check_accepts_the_shape
           (user 2 "Bob" " bob.b+x@mail.example.org ")
           " bob.b+x@mail.example.org ").
  - reflexivity.
  - reflexivity.
Defined.

Lemma count_occ_class (p : ascii -> bool) (c : ascii) (l : list ascii) :
  p c = false -> forallb p l = true -> count_occ ascii_dec l c = 0%nat.
Proof.
  intros Hc. induction l as [| a l IH]; simpl; [reflexivity |].
  intros H. apply andb_prop in H as [Ha Hl].
  destruct (ascii_dec a c) as [-> | _]; [congruence | auto].
Qed.

(** X7. An email that passes the email check has exactly one [@] and at
    least six characters after trimming. *)
Theorem accepted_email_has_one_at (u : record) (email : string) :
  dict_get_default u "email" (PyStr "") = PyStr email ->
  user_email_check u = Ok None ->
  count_occ ascii_dec (list_ascii_of_string (strip email)) "@"%char = 1%nat
  /\ (6 <= List.length (list_ascii_of_string (strip email)))%nat.
Proof.
  intros E H. apply (user_email_check_iff _ _ E) in H.
  destruct H as [lo [dom [tld [-> [H1 [H2 [H3 [H4 [H5 H6]]]]]]]]].
  split.
  - rewrite count_occ_app. simpl.
    destruct (ascii_dec "@" "@") as [_ | N]; [| congruence].
    rewrite count_occ_app. simpl.
    destruct (ascii_dec "." "@") as [N | _]; [discriminate |].
    rewrite (count_occ_class email_local_class), (count_occ_class email_domain_class),
      (count_occ_class email_tld_class); auto.
  - rewrite length_app. simpl. rewrite length_app. simpl.
    destruct lo; [congruence |]. destruct dom; [congruence |]. simpl. lia.
Qed.

Lemma accepted_email_has_one_at_witness :
  count_occ ascii_dec (list_ascii_of_string (strip "alice@example.com")) "@"%char
  = 1%nat
  /\ (6 <= List.length (list_ascii_of_string (strip "alice@example.com")))%nat.
Proof.
  apply (accepted_email_has_one_at (user 1 "Alice" "alice@example.com")
           "alice@example.com").
  - reflexivity.
  - reflexivity.
Defined.

Lemma dict_get_default_set (d : record) (k k' : string) (v dflt : pyval) :
  dict_get_default (Spec.dict_set d k v) k' dflt
  = if String.eqb k k' then v else dict_get_default d k' dflt.
Proof.
  unfold dict_get_default. rewrite lookup_dict_set.
  destruct (String.eqb k k'); reflexivity.
Qed.

(** X8. The validator looks at the trimmed name and email only: storing
    the trimmed values in the record does not change the verdict of
    [validate_user]. *)
Theorem trimming_keeps_the_verdict (u : record) (name email : string) :
  dict_get_default u "name" (PyStr "") = PyStr name ->
  dict_get_default u "email" (PyStr "") = PyStr email ->
  validate_user
    (Spec.dict_set (Spec.dict_set u "name" (PyStr (strip name)))
                   "email" (PyStr (strip email)))
  = validate_user u.
Proof.
  intros Hn He.
  unfold validate_user, user_id_check, user_name_check, user_email_check.
  rewrite !not_positive_int_item. unfold dict_get.
  rewrite !lookup_dict_set, !dict_get_default_set. simpl String.eqb. cbv iota.
  rewrite Hn, He. simpl strip_method. rewrite !strip_idempotent. reflexivity.
Qed.

Lemma trimming_keeps_the_verdict_witness :
  validate_user
    (Spec.dict_set (Spec.dict_set (user 1 "  Alice " " alice@example.com ")
                                  "name" (PyStr (strip "  Alice ")))
                   "email" (PyStr (strip " alice@example.com ")))
  = validate_user (user 1 "  Alice " " alice@example.com ").
Proof.
  apply (trimming_keeps_the_verdict (user 1 "  Alice " " alice@example.com "));
    reflexivity.
Defined.

(** X9. For an integer price (with a valid id and name), the sign decides:
    a negative price gets the "non-negative" message or overflows, a
    non-negative one is accepted or overflows, and in the signed 64-bit
    range there is no overflow. Rounding to a float never turns a negative
    integer into zero. *)
Theorem integer_price_verdict (p : record) (z : Z) :
  Spec.positive_int (lookup p "id") ->
  product_name_check p = Ok None ->
  dict_get p "price" = PyInt z ->
  (validate_product p = Raise OverflowError
   \/ validate_product p
      = (if z <? 0
         then Ok (Some [Lit "Invalid price: "; Fmt (PyInt z);
                        Lit ". Price must be non-negative."])
         else Ok None))
  /\ (- 2 ^ 63 <= z < 2 ^ 63 -> validate_product p <> Raise OverflowError).
Proof.
  intros Hid Hname Hprice. unfold validate_product.
  rewrite (product_id_check_valid _ Hid), Hname. simpl.
  unfold product_price_check. rewrite Hprice. simpl float. split.
  - destruct (FloatFacts.float_of_int_sign z) as [-> | [f [-> ->]]]; auto.
  - intros Hz. destruct (FloatFacts.float_of_int_64 z Hz) as [f [-> ->]].
    destruct (z <? 0); discriminate.
Qed.

Lemma integer_price_verdict_witness :
  validate_product [("id", PyInt 3); ("name", PyStr "Cable"); ("price", PyInt (-7))]
  <> Raise OverflowError.
Proof.
  apply (integer_price_verdict
           [("id", PyInt 3); ("name", PyStr "Cable"); ("price", PyInt (-7))] (-7));
    first [reflexivity | simpl; lia].
Defined.

(** X10. The text of the [INSERT] statement depends on the table and on
    the keys of the record only: the values of the record never reach the
    SQL text, they are passed as parameters. *)
Theorem insert_query_ignores_values (table : string) (r r' : record) :
  keys r = keys r' -> insert_query table r = insert_query table r'.
Proof. apply insert_query_keys. Qed.

Lemma insert_query_ignores_values_witness :
  insert_query "users" (user 1 "Alice" "alice@example.com")
  = insert_query "users" (user 2 "Robert'); DROP TABLE users;--" "bob@example.com").
Proof.
  apply (insert_query_ignores_values "users"
           (user 1 "Alice" "alice@example.com")
           (user 2 "Robert'); DROP TABLE users;--" "bob@example.com")).
  reflexivity.
Defined.

(** X11. A dict returned by [_insert_record] carries the record it was
    given, and its status tells what happened: [validation_error] means the
    validator returned the message in the dict and the store was not
    touched; [success] and [insertion_error] mean the validator accepted
    the record and the storage block returned the row id in the dict, or
    raised the [sqlite3.Error] whose text is in the dict. *)
Theorem insert_record_outcome (B : backend) (k : kind) (r : record)
    (d d' : db B) (o : outcome) :
  _insert_record B (db_path_of k) (table_of k) r (validation_of k) d = (Ok o, d') ->
  out_record o = r /\ Spec.explains B k r d d' o.
Proof. apply insert_outcome. Qed.

Lemma insert_record_outcome_witness :
  out_record {| out_record := order 1 1 1 2; out_status := success;
                out_detail := rowid 1 |} = order 1 1 1 2
  /\ Spec.explains MemDb.sqlite orders (order 1 1 1 2) []
       [("orders.db", [PyInt 1; PyInt 1; PyInt 1; PyInt 2])]
       {| out_record := order 1 1 1 2; out_status := success;
          out_detail := rowid 1 |}.
Proof.
  apply (insert_record_outcome MemDb.sqlite orders (order 1 1 1 2) []).
  reflexivity.
Defined.

Lemma run_batch_outcomes (B : backend) (k : kind) (s : schedule)
    (data : list record) (d : db B) (results : list outcome) :
  fst (run_batch B k s data d) = Ok results ->
  forall o, In o results ->
  In (out_record o) data
  /\ exists d0 d1, Spec.explains B k (out_record o) d0 d1 o.
Proof.
  rewrite run_batch_fst. intros H o Ho.
  destruct (collect_In _ _ _ H o Ho) as [i [_ Hf]].
  apply future_is_task_result in Hf as [r [d0 [Hi Hr]]].
  destruct (_insert_record B (db_path_of k) (table_of k) r (validation_of k) d0)
    as [res d1] eqn:E.
  simpl in Hr; subst res.
  apply insert_outcome in E as [-> He].
  split; [eapply nth_error_In; eassumption | eauto].
Qed.

(** X12. Whatever the schedule, every dict of a returned result list is
    about a record of the batch and its status is explained by the
    validator and the storage block as in X11: no dict is made up, and a
    [success] or [insertion_error] dict is never given to a record the
    validator rejected. *)
Theorem batch_outcomes_are_explained (B : backend) (k : kind) (s : schedule)
    (data : list record) (d : db B) (results : list outcome) (o : outcome) :
  fst (run_batch B k s data d) = Ok results ->
  In o results ->
  In (out_record o) data
  /\ (exists d0 d1, Spec.explains B k (out_record o) d0 d1 o)
  /\ (out_status o <> validation_error -> validation_of k (out_record o) = Ok None).
Proof.
  intros H Ho. destruct (run_batch_outcomes B k s data d results H o Ho)
    as [Hin [d0 [d1 He]]].
  split; [exact Hin |]. split; [eauto |].
  unfold Spec.explains in He. destruct (out_status o); intros Hs.
  - apply He.
  - congruence.
  - apply He.
Qed.

Lemma batch_outcomes_are_explained_witness :
  validation_of users
    (out_record {| out_record := user 1 "Alice" "alice@example.com";
                   out_status := success; out_detail := rowid 1 |})
  = Ok None.
Proof.
  apply (batch_outcomes_are_explained MemDb.sqlite users (in_order 2)
           [user 1 "Alice" "alice@example.com"; user 10 "" "jane@example.com"] []
           [{| out_record := user 1 "Alice" "alice@example.com";
               out_status := success; out_detail := rowid 1 |};
            {| out_record := user 10 "" "jane@example.com";
               out_status := validation_error;
               out_detail := error [Lit "Invalid name: "; Fmt (PyStr "");
                                    Lit ". Must contain only letters and spaces."] |}]).
  - reflexivity.
  - left. reflexivity.
  - discriminate.
Defined.

(** X13. The result list is in completion order: under a fair schedule the
    n-th dict of a returned list is about the record whose future
    [as_completed] yielded n-th. When the futures complete in the order of
    submission the list is in the order of the batch. *)
Theorem results_are_in_completion_order (B : backend) (k : kind) (s : schedule)
    (data : list record) (d : db B) (results : list outcome) :
  fair (List.length data) s ->
  fst (run_batch B k s data d) = Ok results ->
  Forall2 (fun i o => nth_error data i = Some (out_record o)) (done_order s) results
  /\ (done_order s = seq 0 (List.length data) -> map out_record results = data).
Proof.
  intros Hfair H.
  assert (F : Forall2 (fun i o => nth_error data i = Some (out_record o))
                      (done_order s) results).
  { rewrite run_batch_fst in H.
    eapply Forall2_impl; [| apply (collect_Forall2 _ _ _ H)].
    - intros i o Hf. simpl in Hf.
      apply future_is_task_result in Hf as [r [d0 [Hi Hr]]].
      rewrite Hi. f_equal. symmetry.
      destruct (_insert_record B (db_path_of k) (table_of k) r (validation_of k) d0)
        as [res d1] eqn:E.
      simpl in Hr; subst res. eapply insert_keeps_record; eassumption.
    - intros i Hi. apply (yielded_is_a_task s data Hfair) in Hi.
      destruct (every_task_has_a_future B k s data d Hfair i Hi) as [res ->].
      discriminate. }
  split; [exact F |].
  intros Hd. rewrite Hd in F. clear - F.
  assert (G : forall start,
             Forall2 (fun i o => nth_error data i = Some (out_record o))
                     (seq start (List.length data - start)) results ->
             map out_record results = skipn start data).
  { clear F. intros start. revert start.
    induction results as [| o os IH]; intros start F'.
    - inversion F' as [E |]. simpl.
      destruct (Nat.le_gt_cases (List.length data) start) as [Hle | Hgt].
      + symmetry. apply skipn_all2. exact Hle.
      + destruct (List.length data - start)%nat eqn:El; [lia | discriminate].
    - destruct (List.length data - start)%nat as [| n] eqn:El;
        inversion F' as [| i o' ids os' Hi Hrest]; subst.
      simpl.
      replace n with (List.length data - S start)%nat in Hrest by lia.
      rewrite (IH _ Hrest).
      clear - Hi. revert start Hi.
      induction data as [| a l IHl]; intros [| st] Hi; simpl in *;
        try discriminate.
      + injection Hi as ->. reflexivity.
      + apply IHl. exact Hi. }
  rewrite <- (Nat.sub_0_r (List.length data)) in F. apply (G 0%nat F).
Qed.

Lemma results_are_in_completion_order_witness :
  map out_record
    [{| out_record := order 1 1 1 2; out_status := success; out_detail := rowid 1 |};
     {| out_record := order 2 2 2 1; out_status := success; out_detail := rowid 2 |}]
  = [order 1 1 1 2; order 2 2 2 1].
Proof.
  apply (results_are_in_completion_order MemDb.sqlite orders (in_order 2)
           [order 1 1 1 2; order 2 2 2 1] []).
  - split; apply Permutation_refl.
  - reflexivity.
  - reflexivity.
Defined.

(** X14. A batch in which the validator rejects every record leaves the
    store as it found it, whatever the schedule, and under a fair schedule
    it returns one [validation_error] dict for each record. *)
Theorem rejected_batch_writes_nothing (B : backend) (k : kind) (s : schedule)
    (data : list record) (d : db B) :
  fair (List.length data) s ->
  (forall r, In r data -> exists m, validation_of k r = Ok (Some m)) ->
  exists results,
    run_batch B k s data d = (Ok results, d)
    /\ Forall (fun o => out_status o = validation_error) results
    /\ Permutation (map out_record results) data.
Proof.
  intros Hfair Hrej.
  assert (Hd : snd (run_batch B k s data d) = d).
  { rewrite run_batch_snd. unfold submit_all.
    apply run_workers_no_write. intros r d0 Hr.
    destruct (Hrej r Hr) as [m Hm].
    rewrite (insert_validation_error B _ _ _ r d0 m Hm
               (validation_of_truthy k r m Hm)). reflexivity. }
  destruct (run_batch_returns B k s data d Hfair) as [results [Hres [_ Hperm]]].
  { intros i e Hr.
    apply future_is_task_result in Hr as [r [d0 [Hi Hr]]].
    destruct (Hrej r (nth_error_In _ _ Hi)) as [m Hm].
    rewrite (insert_validation_error B _ _ _ r d0 m Hm
               (validation_of_truthy k r m Hm)) in Hr.
    discriminate. }
  exists results. split; [| split; [| exact Hperm]].
  - destruct (run_batch B k s data d) as [x y]. simpl in *. congruence.
  - apply Forall_forall. intros o Ho.
    destruct (run_batch_outcomes B k s data d results Hres o Ho)
      as [Hin [d0 [d1 He]]].
    destruct (Hrej _ Hin) as [m Hm].
    unfold Spec.explains in He.
    destruct (out_status o); [| reflexivity |]; destruct He as [He _]; congruence.
Qed.

Lemma rejected_batch_writes_nothing_witness :
  exists results,
    run_batch MemDb.sqlite users (in_order 2)
      [user 10 "" "jane@example.com"; user 0 "Zed" "zed@example.com"]
      [("users.db", [PyInt 1; PyStr "Alice"; PyStr "alice@example.com"])]
    = (Ok results,
       [("users.db", [PyInt 1; PyStr "Alice"; PyStr "alice@example.com"])])
    /\ Forall (fun o => out_status o = validation_error) results
    /\ Permutation (map out_record results)
         [user 10 "" "jane@example.com"; user 0 "Zed" "zed@example.com"].
Proof.
  apply (rejected_batch_writes_nothing MemDb.sqlite users (in_order 2)
           [user 10 "" "jane@example.com"; user 0 "Zed" "zed@example.com"]).
  - split; apply Permutation_refl.
  - intros r [<- | [<- | []]]; eexists; reflexivity.
Defined.

(** X15. An empty batch returns the empty list and leaves the store as it
    was, whatever the schedule names. *)
Theorem empty_batch (B : backend) (k : kind) (s : schedule) (d : db B) :
  run_batch B k s [] d = (Ok [], d).
Proof.
  unfold run_batch, submit_all. rewrite run_workers_empty.
  rewrite collect_empty. reflexivity.
Qed.





End Extras.
